(** * io_uring allocation cache (alloc_cache.h): a bounded intrusive LIFO free list

    Two revisions of the header are verified side by side:
    - [Plain]: put / get / init / free without instrumentation;
    - [Kasan]: the revision where put poisons the entry, get takes a
      [size] and unpoisons the entry, and free is a loop around get.

    The embedding is shallow.  Pointers are addresses in [Z] with
    [NULL = 0]; the objects that embed a [struct io_cache_entry] live in
    a finite map from addresses to objects; a dereference of [NULL] or of
    an address that holds no object is a [Fault].  The calls that leave
    the header (the KASAN hooks and the caller-supplied [free] callback)
    are recorded, in order, as events. *)

From Stdlib Require Import ZArith List Lia.
From stdpp Require Import base option list gmap.

Open Scope Z_scope.

(** ** Data *)

Definition NULL : Z := 0.

(** [#define IO_ALLOC_CACHE_MAX 512] *)
Definition IO_ALLOC_CACHE_MAX : Z := 512.

(** [struct io_wq_work_node { struct io_wq_work_node *next; }] *)
Record io_wq_work_node := { next : Z }.

(** [struct io_cache_entry { struct io_wq_work_node node; }] *)
Record io_cache_entry := { node : io_wq_work_node }.

(** An object handed to the cache: the embedded entry comes first, the
    rest of the object is payload the header never names. *)
Record object := { entry_hdr : io_cache_entry; payload : list Byte.byte }.

(** [struct io_alloc_cache]: the list head and the counter.  The struct is
    declared outside the header; [nr_cached] is an [unsigned int], kept
    here as a [Z] whose increment wraps at [2^32]. *)
Record io_alloc_cache := { cache_list : io_wq_work_node; nr_cached : Z }.

Definition UINT_MODULUS : Z := 2 ^ 32.

Record machine := { mem : gmap Z object; cache : io_alloc_cache }.

(** Calls that leave the header. *)
Inductive event :=
| EvPoison (entry : Z)                (* kasan_slab_free_mempool(entry) *)
| EvUnpoison (entry : Z) (size : Z)   (* kasan_unpoison_range(entry, size) *)
| EvFree (entry : Z).                 (* free(entry), the callback of io_alloc_cache_free *)

(** ** The monad of the embedding: state, event log, faults and fuel *)

Inductive result (A : Type) :=
| Ok (a : A) (s : machine) (t : list event)
| Fault
| OutOfFuel.
Arguments Ok {A} a s t.
Arguments Fault {A}.
Arguments OutOfFuel {A}.

Definition M (A : Type) : Type := machine → result A.

#[global] Instance M_ret : MRet M := λ A a s, Ok a s [].
#[global] Instance M_bind : MBind M := λ A B f m s,
  match m s with
  | Ok a s1 t1 =>
      match f a s1 with
      | Ok b s2 t2 => Ok b s2 (t1 ++ t2)
      | Fault => Fault
      | OutOfFuel => OutOfFuel
      end
  | Fault => Fault
  | OutOfFuel => OutOfFuel
  end.

Definition out_of_fuel {A} : M A := λ _, OutOfFuel.
Definition emit (e : event) : M unit := λ s, Ok () s [e].

Definition read_cache : M io_alloc_cache := λ s, Ok (cache s) s [].

(** [cache->nr_cached = n] *)
Definition write_nr_cached (n : Z) : M unit := λ s,
  Ok () {| mem := mem s;
           cache := {| cache_list := cache_list (cache s); nr_cached := n |} |} [].

(** [cache->list.next = p] *)
Definition write_list_next (p : Z) : M unit := λ s,
  Ok () {| mem := mem s;
           cache := {| cache_list := {| next := p |};
                       nr_cached := nr_cached (cache s) |} |} [].

Definition set_next (v : Z) (o : object) : object :=
  {| entry_hdr := {| node := {| next := v |} |}; payload := payload o |}.

Definition obj_next (o : object) : Z := next (node (entry_hdr o)).

(** [p->next] read through a node pointer. *)
Definition load_next (p : Z) : M Z := λ s,
  if bool_decide (p = NULL) then Fault
  else match mem s !! p with
       | Some o => Ok (obj_next o) s []
       | None => Fault
       end.

(** [p->next = v] written through a node pointer. *)
Definition store_next (p v : Z) : M unit := λ s,
  if bool_decide (p = NULL) then Fault
  else match mem s !! p with
       | Some o => Ok () {| mem := <[p := set_next v o]> (mem s); cache := cache s |} []
       | None => Fault
       end.

(** [node] is the first (and only) member of [struct io_cache_entry], at
    offset 0: [&entry->node] and [container_of(node, struct
    io_cache_entry, node)] leave the address as it is. *)
Definition offsetof_node : Z := 0.
Definition node_of (entry : Z) : Z := entry + offsetof_node.
Definition container_of (nd : Z) : Z := nd - offsetof_node.

(** Modelled from the spec: [wq_stack_add_head(node, stack)] is declared
    outside the header.  The spec has put link the entry as the new head,
    "its link field set to the previous head":
    [node->next = stack->next; stack->next = node;] with [stack] the
    cache's list head. *)
Definition wq_stack_add_head (nd : Z) : M unit :=
  c ← read_cache;
  store_next nd (next (cache_list c));;
  write_list_next nd.

Definition kasan_slab_free_mempool (entry : Z) : M unit := emit (EvPoison entry).
Definition kasan_unpoison_range (entry size : Z) : M unit := emit (EvUnpoison entry size).
Definition call_free (entry : Z) : M unit := emit (EvFree entry).

(** [io_alloc_cache_init] is the same in both revisions. *)
Definition io_alloc_cache_init : M unit :=
  write_list_next NULL;;
  write_nr_cached 0.

(** Operations a caller can issue; [size] is only looked at by the [Kasan]
    revision. *)
Inductive op :=
| op_init
| op_put (entry : Z)
| op_get (size : Z)
| op_free (size : Z).

Inductive outcome :=
| o_unit
| o_bool (b : bool)
| o_ptr (p : Z).

(** ** The revision without instrumentation *)
Module Plain.

Definition io_alloc_cache_put (entry : Z) : M bool :=
  c ← read_cache;
  if bool_decide (nr_cached c < IO_ALLOC_CACHE_MAX) then
    write_nr_cached ((nr_cached c + 1) mod UINT_MODULUS);;
    wq_stack_add_head (node_of entry);;
    mret true
  else mret false.

Definition io_alloc_cache_get : M Z :=
  c ← read_cache;
  if bool_decide (next (cache_list c) ≠ NULL) then
    let nd := next (cache_list c) in
    nx ← load_next nd;
    write_list_next nx;;
    mret (container_of nd)
  else mret NULL.

(** The [while] loop runs on fuel: one unit per evaluation of its
    condition. *)
Fixpoint io_alloc_cache_free (fuel : nat) : M unit :=
  match fuel with
  | O => out_of_fuel
  | S fuel' =>
      c ← read_cache;
      if bool_decide (next (cache_list c) ≠ NULL) then
        let nd := next (cache_list c) in
        nx ← load_next nd;
        write_list_next nx;;
        call_free (container_of nd);;
        io_alloc_cache_free fuel'
      else write_nr_cached 0
  end.

Definition step (fuel : nat) (o : op) : M outcome :=
  match o with
  | op_init => io_alloc_cache_init;; mret o_unit
  | op_put e => b ← io_alloc_cache_put e; mret (o_bool b)
  | op_get _ => p ← io_alloc_cache_get; mret (o_ptr p)
  | op_free _ => io_alloc_cache_free fuel;; mret o_unit
  end.

Fixpoint run (fuel : nat) (ops : list op) : M (list outcome) :=
  match ops with
  | [] => mret []
  | o :: ops' => r ← step fuel o; rs ← run fuel ops'; mret (r :: rs)
  end.

End Plain.

(** ** The revision with the KASAN hooks *)
Module Kasan.

Definition io_alloc_cache_put (entry : Z) : M bool :=
  c ← read_cache;
  if bool_decide (nr_cached c < IO_ALLOC_CACHE_MAX) then
    write_nr_cached ((nr_cached c + 1) mod UINT_MODULUS);;
    wq_stack_add_head (node_of entry);;
    kasan_slab_free_mempool entry;;
    mret true
  else mret false.

Definition io_alloc_cache_get (size : Z) : M Z :=
  c ← read_cache;
  if bool_decide (next (cache_list c) ≠ NULL) then
    let nd := next (cache_list c) in
    let entry := container_of nd in
    kasan_unpoison_range entry size;;
    nx ← load_next nd;
    write_list_next nx;;
    mret entry
  else mret NULL.

Fixpoint io_alloc_cache_free (fuel : nat) (size : Z) : M unit :=
  match fuel with
  | O => out_of_fuel
  | S fuel' =>
      entry ← io_alloc_cache_get size;
      if bool_decide (entry ≠ NULL) then
        call_free entry;;
        io_alloc_cache_free fuel' size
      else write_nr_cached 0
  end.

Definition step (fuel : nat) (o : op) : M outcome :=
  match o with
  | op_init => io_alloc_cache_init;; mret o_unit
  | op_put e => b ← io_alloc_cache_put e; mret (o_bool b)
  | op_get size => p ← io_alloc_cache_get size; mret (o_ptr p)
  | op_free size => io_alloc_cache_free fuel size;; mret o_unit
  end.

Fixpoint run (fuel : nat) (ops : list op) : M (list outcome) :=
  match ops with
  | [] => mret []
  | o :: ops' => r ← step fuel o; rs ← run fuel ops'; mret (r :: rs)
  end.

End Kasan.

(** ** Predicates of the specification *)

(** A pointer the header may dereference. *)
Definition valid (m : gmap Z object) (p : Z) : Prop :=
  p ≠ NULL ∧ is_Some (m !! p).

(** [chain m p l]: following the links from [p] visits exactly the nodes
    [l], in order, and then reaches [NULL]. *)
Inductive chain (m : gmap Z object) : Z → list Z → Prop :=
| chain_nil : chain m NULL []
| chain_cons p o l :
    p ≠ NULL → m !! p = Some o → chain m (obj_next o) l → chain m p (p :: l).

Definition head (s : machine) : Z := next (cache_list (cache s)).
Definition count (s : machine) : Z := nr_cached (cache s).

(** The entries the [free] callback was called on, in call order. *)
Fixpoint destroyed (t : list event) : list Z :=
  match t with
  | [] => []
  | EvFree p :: t' => p :: destroyed t'
  | _ :: t' => destroyed t'
  end.

(** A log with the KASAN hooks dropped. *)
Fixpoint erase_kasan (t : list event) : list event :=
  match t with
  | [] => []
  | EvFree p :: t' => EvFree p :: erase_kasan t'
  | _ :: t' => erase_kasan t'
  end.

Definition erase_result {A} (r : result A) : result A :=
  match r with
  | Ok a s t => Ok a s (erase_kasan t)
  | Fault => Fault
  | OutOfFuel => OutOfFuel
  end.

(** The link structure of a memory, payloads forgotten. *)
Definition links (m : gmap Z object) : gmap Z Z := obj_next <$> m.
Definition payloads (m : gmap Z object) : gmap Z (list Byte.byte) := payload <$> m.

Definition with_head (p : Z) (s : machine) : machine :=
  {| mem := mem s;
     cache := {| cache_list := {| next := p |}; nr_cached := nr_cached (cache s) |} |}.

Definition with_count (n : Z) (s : machine) : machine :=
  {| mem := mem s;
     cache := {| cache_list := cache_list (cache s); nr_cached := n |} |}.

(** The state a successful put of [e] leads to, [o] being the object at [e]. *)
Definition pushed (e : Z) (o : object) (s : machine) : machine :=
  {| mem := <[e := set_next (head s) o]> (mem s);
     cache := {| cache_list := {| next := e |};
                 nr_cached := (count s + 1) mod UINT_MODULUS |} |}.

(** The result [r] of a continuation, with the events [t0] that came
    before it put in front of its log. *)
Definition log_before {A} (t0 : list event) (r : result A) : result A :=
  match r with
  | Ok a s t => Ok a s (t0 ++ t)
  | Fault => Fault
  | OutOfFuel => OutOfFuel
  end.

(** The state every completed [io_alloc_cache_free] ends in. *)
Definition drained (s : machine) : machine :=
  {| mem := mem s;
     cache := {| cache_list := {| next := NULL |}; nr_cached := 0 |} |}.

(** What the [Kasan] free loop logs on the chain [l]. *)
Definition kasan_free_log (size : Z) (l : list Z) : list event :=
  l ≫= λ e, [EvUnpoison e size; EvFree e].

Definition map_result {A B} (f : A → B) (r : result A) : result B :=
  match r with
  | Ok a s t => Ok (f a) s t
  | Fault => Fault
  | OutOfFuel => OutOfFuel
  end.

(** The counter agrees with the chain: the invariant of the data model. *)
Definition cache_inv (s : machine) : Prop :=
  ∃ l, chain (mem s) (head s) l ∧ count s = Z.of_nat (length l).

#[global] Instance valid_dec m p : Decision (valid m p).
Proof. unfold valid. apply _. Defined.

(** What a run of [n] puts on an initialized cache is claimed to return:
    true for the calls numbered below IO_ALLOC_CACHE_MAX, false from then
    on. *)
Definition put_outcomes_from (j n : nat) : list outcome :=
  (λ i : nat, o_bool (bool_decide (Z.of_nat i < IO_ALLOC_CACHE_MAX))) <$> seq j n.

Definition put_outcomes (n : nat) : list outcome := put_outcomes_from 0 n.

(** ** Sample states *)

Definition mk_object (nx : Z) (bytes : list Byte.byte) : object :=
  {| entry_hdr := {| node := {| next := nx |} |}; payload := bytes |}.

Definition mk_machine (m : gmap Z object) (h n : Z) : machine :=
  {| mem := m; cache := {| cache_list := {| next := h |}; nr_cached := n |} |}.

(** Three objects at 8, 16 and 24, none of them linked. *)
Definition three_objects : gmap Z object :=
  <[8 := mk_object NULL [Byte.x01]]>
    (<[16 := mk_object NULL [Byte.x02]]>
       (<[24 := mk_object NULL [Byte.x03]]> ∅)).

(** The same three objects with other payload bytes. *)
Definition three_objects' : gmap Z object :=
  <[8 := mk_object NULL [Byte.xaa; Byte.xbb]]>
    (<[16 := mk_object NULL []]>
       (<[24 := mk_object NULL [Byte.xcc]]> ∅)).

(** 24 -> 16 -> 8 -> NULL *)
Definition linked_objects : gmap Z object :=
  <[8 := mk_object NULL [Byte.x01]]>
    (<[16 := mk_object 8 [Byte.x02]]>
       (<[24 := mk_object 16 [Byte.x03]]> ∅)).

Definition fresh_cache : machine := mk_machine three_objects NULL 0.
Definition full_cache : machine := mk_machine three_objects NULL 512.
Definition stacked_cache : machine := mk_machine linked_objects 24 3.

(** 520 unlinked objects at 8, 16, ..., 4160, and their addresses. *)
Definition many_entries : list Z := (λ i : nat, 8 * Z.of_nat i) <$> seq 1 520.

Definition many_objects : gmap Z object :=
  list_to_map ((λ e : Z, (e, mk_object NULL [])) <$> many_entries).

Definition roomy_cache : machine := mk_machine many_objects NULL 0.

(** put(8); get() repeated [n] times. *)
Fixpoint put_get_pairs (n : nat) : list op :=
  match n with
  | O => []
  | S n' => op_put 8 :: op_get 0 :: put_get_pairs n'
  end.

(** ** Bookkeeping over runs *)

Definition is_put_or_get (o : op) : bool :=
  match o with
  | op_put _ | op_get _ => true
  | _ => false
  end.

Definition is_free (o : op) : bool :=
  match o with
  | op_free _ => true
  | _ => false
  end.

(** The number of puts that returned true. *)
Fixpoint successes (outs : list outcome) : Z :=
  match outs with
  | [] => 0
  | o_bool true :: outs' => 1 + successes outs'
  | _ :: outs' => successes outs'
  end.

(** The hook calls one operation with outcome [r] accounts for: a poison
    for a put that returned true, an unpoison for a get that returned an
    entry. *)
Definition hook_events (o : op) (r : outcome) : list event :=
  match o, r with
  | op_put e, o_bool true => [EvPoison e]
  | op_get size, o_ptr p => if bool_decide (p = NULL) then [] else [EvUnpoison p size]
  | _, _ => []
  end.

Fixpoint expected_hooks (ops : list op) (outs : list outcome) : list event :=
  match ops, outs with
  | o :: ops', r :: outs' => hook_events o r ++ expected_hooks ops' outs'
  | _, _ => []
  end.

(** ** The powerpc shadow mapping (asm/kasan.h)

    Addresses are [unsigned long]: a [Z] taken modulo [2^64].  The region
    macros are defined outside the header, so they come as parameters:
    [REGION_ID], [REGION_SHIFT], [KERNEL_REGION_ID], [KASAN_REGION_ID] and
    [KASAN_SHADOW_SCALE_SHIFT], and the address of [kasan_zero_page]. *)
Module Ppc.

Record layout := {
  REGION_ID : Z → Z;
  REGION_SHIFT : Z;
  KERNEL_REGION_ID : Z;
  KASAN_REGION_ID : Z;
  KASAN_SHADOW_SCALE_SHIFT : Z;
  kasan_zero_page : Z
}.

Definition ULONG_MODULUS : Z := 2 ^ 64.
Definition ulong (z : Z) : Z := z mod ULONG_MODULUS.

(** [((KASAN_REGION_ID << REGION_SHIFT) -
      (KERNEL_REGION_ID << (REGION_SHIFT - 3)))] *)
Definition KASAN_SHADOW_KERNEL_OFFSET (L : layout) : Z :=
  ulong (ulong (Z.shiftl (KASAN_REGION_ID L) (REGION_SHIFT L)) -
         ulong (Z.shiftl (KERNEL_REGION_ID L) (REGION_SHIFT L - 3))).

Definition kasan_mem_to_shadow (L : layout) (addr : Z) : Z :=
  if bool_decide (REGION_ID L addr = KERNEL_REGION_ID L) then
    ulong (Z.shiftr addr (KASAN_SHADOW_SCALE_SHIFT L) + KASAN_SHADOW_KERNEL_OFFSET L)
  else kasan_zero_page L.

(** The default case ends in [BUG()]: no address is returned. *)
Definition kasan_shadow_to_mem (L : layout) (shadow_addr : Z) : option Z :=
  if bool_decide (REGION_ID L shadow_addr = KASAN_REGION_ID L) then
    Some (ulong (Z.shiftl (ulong (shadow_addr - KASAN_SHADOW_KERNEL_OFFSET L))
                          (KASAN_SHADOW_SCALE_SHIFT L)))
  else None.

(** The values the header's comment works with: region in the top four
    bits, kernel region 0xc, shadow region 0xe, one shadow byte per 8 bytes. *)
Definition book3s64 : layout :=
  {| REGION_ID := λ ea, Z.shiftr ea 60;
     REGION_SHIFT := 60;
     KERNEL_REGION_ID := 0xc;
     KASAN_REGION_ID := 0xe;
     KASAN_SHADOW_SCALE_SHIFT := 3;
     kasan_zero_page := 0xc000000001000000 |}.

End Ppc.

(** * Proofs *)

Ltac run_monad :=
  unfold mbind, M_bind, mret, M_ret, read_cache, write_nr_cached,
    write_list_next, emit, out_of_fuel; cbn.

(** ** Closed forms of the operations *)

Lemma node_of_id e : node_of e = e.
Proof. unfold node_of, offsetof_node. lia. Qed.

Lemma container_of_id p : container_of p = p.
Proof. unfold container_of, offsetof_node. lia. Qed.

Lemma plain_put_eq e s :
  Plain.io_alloc_cache_put e s =
  if bool_decide (count s < IO_ALLOC_CACHE_MAX) then
    if bool_decide (e = NULL) then Fault
    else match mem s !! e with
         | Some o => Ok true (pushed e o s) []
         | None => Fault
         end
  else Ok false s [].
Proof.
  unfold Plain.io_alloc_cache_put, wq_stack_add_head, store_next, count.
  rewrite node_of_id. run_monad.
  case_bool_decide; [|done]. run_monad.
  case_bool_decide; [done|].
  destruct (mem s !! e) as [o|]; done.
Qed.

Lemma plain_get_eq s :
  Plain.io_alloc_cache_get s =
  if bool_decide (head s ≠ NULL) then
    match mem s !! head s with
    | Some o => Ok (head s) (with_head (obj_next o) s) []
    | None => Fault
    end
  else Ok NULL s [].
Proof.
  unfold Plain.io_alloc_cache_get, load_next, head.
  run_monad.
  case_bool_decide as Hn; [|done]. run_monad.
  rewrite container_of_id, bool_decide_eq_false_2 by done.
  destruct (mem s !! _) as [o|]; done.
Qed.

Lemma kasan_put_eq e s :
  Kasan.io_alloc_cache_put e s =
  if bool_decide (count s < IO_ALLOC_CACHE_MAX) then
    if bool_decide (e = NULL) then Fault
    else match mem s !! e with
         | Some o => Ok true (pushed e o s) [EvPoison e]
         | None => Fault
         end
  else Ok false s [].
Proof.
  unfold Kasan.io_alloc_cache_put, wq_stack_add_head, store_next,
    kasan_slab_free_mempool, count.
  rewrite node_of_id. run_monad.
  case_bool_decide; [|done]. run_monad.
  case_bool_decide; [done|].
  destruct (mem s !! e) as [o|]; done.
Qed.

Lemma kasan_get_eq size s :
  Kasan.io_alloc_cache_get size s =
  if bool_decide (head s ≠ NULL) then
    match mem s !! head s with
    | Some o => Ok (head s) (with_head (obj_next o) s) [EvUnpoison (head s) size]
    | None => Fault
    end
  else Ok NULL s [].
Proof.
  unfold Kasan.io_alloc_cache_get, load_next, kasan_unpoison_range, head.
  run_monad.
  case_bool_decide as Hn; [|done]. run_monad.
  rewrite container_of_id, bool_decide_eq_false_2 by done.
  destruct (mem s !! _) as [o|]; done.
Qed.

(** ** The free loop, one iteration at a time *)

Lemma plain_free_S fuel s :
  Plain.io_alloc_cache_free (S fuel) s =
  if bool_decide (head s ≠ NULL) then
    match mem s !! head s with
    | Some o =>
        log_before [EvFree (head s)]
          (Plain.io_alloc_cache_free fuel (with_head (obj_next o) s))
    | None => Fault
    end
  else Ok () (with_count 0 s) [].
Proof.
  cbn [Plain.io_alloc_cache_free]. unfold load_next, call_free, head.
  run_monad.
  case_bool_decide as Hn; [|done]. run_monad.
  rewrite container_of_id, bool_decide_eq_false_2 by done.
  destruct (mem s !! _) as [o|]; [|done]. cbn.
  unfold with_head.
  destruct (Plain.io_alloc_cache_free fuel _); done.
Qed.

Lemma kasan_free_S fuel size s :
  Kasan.io_alloc_cache_free (S fuel) size s =
  if bool_decide (head s ≠ NULL) then
    match mem s !! head s with
    | Some o =>
        log_before [EvUnpoison (head s) size; EvFree (head s)]
          (Kasan.io_alloc_cache_free fuel size (with_head (obj_next o) s))
    | None => Fault
    end
  else Ok () (with_count 0 s) [].
Proof.
  cbn [Kasan.io_alloc_cache_free].
  unfold mbind at 1. unfold M_bind at 1.
  rewrite kasan_get_eq.
  case_bool_decide as Hn.
  - destruct (mem s !! head s) as [o|]; [|done].
    rewrite bool_decide_eq_true_2 by done.
    unfold call_free. run_monad.
    fold (with_head (obj_next o) s).
    destruct (Kasan.io_alloc_cache_free fuel size _); done.
  - rewrite bool_decide_eq_false_2 by (unfold NULL; lia). done.
Qed.

(** ** Chains *)

Lemma chain_functional m p l1 l2 : chain m p l1 → chain m p l2 → l1 = l2.
Proof.
  intros H1. revert l2.
  induction H1 as [|p o l Hp Ho _ IH]; intros l2 H2; inversion H2; subst; try done.
  f_equal. apply IH. congruence.
Qed.

Lemma chain_null m l : chain m NULL l → l = [].
Proof. inversion 1; done. Qed.

Lemma chain_split m q l p :
  chain m q l → p ∈ l → ∃ l1 l2, l = l1 ++ p :: l2 ∧ chain m p (p :: l2).
Proof.
  induction 1 as [|q o l Hq Ho Hc IH]; intros Hin.
  - by apply elem_of_nil in Hin.
  - apply elem_of_cons in Hin as [->|Hin].
    + exists [], l. split; [done|]. by econstructor.
    + destruct (IH Hin) as (l1 & l2 & -> & Hp).
      by exists (q :: l1), l2.
Qed.

(** A chain that reaches [NULL] visits no node twice. *)
Lemma chain_NoDup m p l : chain m p l → NoDup l.
Proof.
  induction 1 as [|p o l Hp Ho Hc IH]; constructor; [|done].
  intros Hin.
  destruct (chain_split _ _ _ _ Hc Hin) as (l1 & l2 & Hl & Hp2).
  assert (Hfull : chain m p (p :: l)) by (by econstructor).
  pose proof (chain_functional _ _ _ _ Hfull Hp2) as Heq.
  apply (f_equal length) in Heq. rewrite Hl in Heq.
  rewrite !length_cons, length_app, length_cons in Heq. lia.
Qed.

Lemma chain_not_null m p l : chain m p l → NULL ∉ l.
Proof.
  induction 1 as [|p o l Hp Ho Hc IH]; [apply not_elem_of_nil|].
  apply not_elem_of_cons. done.
Qed.

Lemma chain_valid m p l e : chain m p l → e ∈ l → valid m e.
Proof.
  induction 1 as [|p o l Hp Ho Hc IH]; intros Hin.
  - by apply elem_of_nil in Hin.
  - apply elem_of_cons in Hin as [->|Hin]; [|by apply IH].
    split; [done|by eexists].
Qed.

(** Writing the link of a node that is not on the chain leaves the chain
    as it is. *)
Lemma chain_insert_fresh m p l e o :
  chain m p l → e ∉ l → chain (<[e := o]> m) p l.
Proof.
  induction 1 as [|p o' l Hp Ho Hc IH]; intros Hnin; [constructor|].
  apply not_elem_of_cons in Hnin as [Hne Hnin].
  econstructor; [done| |by apply IH].
  by rewrite lookup_insert_ne.
Qed.

Lemma with_count_drained s : head s = NULL → with_count 0 s = drained s.
Proof.
  destruct s as [m [[h] n]]. unfold head, with_count, drained. cbn.
  by intros ->.
Qed.

Lemma chain_inv m p l :
  chain m p l →
  (p = NULL ∧ l = []) ∨
  (p ≠ NULL ∧ ∃ o l', m !! p = Some o ∧ l = p :: l' ∧ chain m (obj_next o) l').
Proof. destruct 1; [by left|right; eauto 6]. Qed.

(** ** The free loop on a chain *)

(** Termination: on a chain of [length l] nodes the loop tests its
    condition [length l + 1] times. *)
Lemma plain_free_chain fuel s l :
  chain (mem s) (head s) l → (length l < fuel)%nat →
  Plain.io_alloc_cache_free fuel s = Ok () (drained s) (EvFree <$> l).
Proof.
  revert s l. induction fuel as [|fuel IH]; intros s l Hc Hlen; [lia|].
  rewrite plain_free_S.
  destruct (chain_inv _ _ _ Hc) as [[Hh ->]|(Hp & o & l' & Ho & -> & Hc')].
  - rewrite bool_decide_eq_false_2 by tauto.
    by rewrite with_count_drained.
  - rewrite bool_decide_eq_true_2 by done. rewrite Ho.
    rewrite (IH (with_head (obj_next o) s) l'); [done|done|].
    cbn in Hlen. lia.
Qed.

Lemma plain_free_inv fuel s u s' t :
  Plain.io_alloc_cache_free fuel s = Ok u s' t →
  ∃ l, chain (mem s) (head s) l ∧ (length l < fuel)%nat ∧
       s' = drained s ∧ t = EvFree <$> l.
Proof.
  destruct u. revert s s' t. induction fuel as [|fuel IH]; intros s s' t; [done|].
  rewrite plain_free_S. case_bool_decide as Hn.
  - destruct (mem s !! head s) as [o|] eqn:Ho; [|done].
    destruct (Plain.io_alloc_cache_free fuel _) as [[] s1 t1| |] eqn:Hr; [|done..].
    cbn. intros [= -> <-].
    destruct (IH _ _ _ Hr) as (l & Hc & Hlen & -> & ->).
    exists (head s :: l). split_and!; [by econstructor|cbn; lia|done..].
  - intros [= <- <-].
    assert (Hh : head s = NULL) by (destruct (decide (head s = NULL)); tauto).
    exists []. split_and!; [rewrite Hh; constructor|cbn; lia| |done].
    by rewrite with_count_drained.
Qed.

Lemma kasan_free_chain fuel size s l :
  chain (mem s) (head s) l → (length l < fuel)%nat →
  Kasan.io_alloc_cache_free fuel size s = Ok () (drained s) (kasan_free_log size l).
Proof.
  revert s l. induction fuel as [|fuel IH]; intros s l Hc Hlen; [lia|].
  rewrite kasan_free_S.
  destruct (chain_inv _ _ _ Hc) as [[Hh ->]|(Hp & o & l' & Ho & -> & Hc')].
  - rewrite bool_decide_eq_false_2 by tauto.
    by rewrite with_count_drained.
  - rewrite bool_decide_eq_true_2 by done. rewrite Ho.
    rewrite (IH (with_head (obj_next o) s) l'); [done|done|].
    cbn in Hlen. lia.
Qed.

Lemma kasan_free_inv fuel size s u s' t :
  Kasan.io_alloc_cache_free fuel size s = Ok u s' t →
  ∃ l, chain (mem s) (head s) l ∧ (length l < fuel)%nat ∧
       s' = drained s ∧ t = kasan_free_log size l.
Proof.
  destruct u. revert s s' t. induction fuel as [|fuel IH]; intros s s' t; [done|].
  rewrite kasan_free_S. case_bool_decide as Hn.
  - destruct (mem s !! head s) as [o|] eqn:Ho; [|done].
    destruct (Kasan.io_alloc_cache_free fuel size _) as [[] s1 t1| |] eqn:Hr; [|done..].
    cbn. intros [= -> <-].
    destruct (IH _ _ _ Hr) as (l & Hc & Hlen & -> & ->).
    exists (head s :: l). split_and!; [by econstructor|cbn; lia|done..].
  - intros [= <- <-].
    assert (Hh : head s = NULL) by (destruct (decide (head s = NULL)); tauto).
    exists []. split_and!; [rewrite Hh; constructor|cbn; lia| |done].
    by rewrite with_count_drained.
Qed.

Lemma destroyed_plain_log l : destroyed (EvFree <$> l) = l.
Proof. induction l as [|e l IH]; cbn; [done|by rewrite IH]. Qed.

Lemma destroyed_kasan_log size l : destroyed (kasan_free_log size l) = l.
Proof. induction l as [|e l IH]; cbn; [done|]. f_equal. apply IH. Qed.

Lemma erase_kasan_free_log size l : erase_kasan (kasan_free_log size l) = EvFree <$> l.
Proof. induction l as [|e l IH]; cbn; [done|]. f_equal. apply IH. Qed.

Lemma erase_kasan_app t1 t2 : erase_kasan (t1 ++ t2) = erase_kasan t1 ++ erase_kasan t2.
Proof.
  induction t1 as [|[e|e n|e] t1 IH]; cbn; [done|done|done|by rewrite IH].
Qed.

Lemma destroyed_app t1 t2 : destroyed (t1 ++ t2) = destroyed t1 ++ destroyed t2.
Proof.
  induction t1 as [|[e|e n|e] t1 IH]; cbn; [done|done|done|by rewrite IH].
Qed.

(** ** Sequences of operations *)

Lemma bind_mret {A B} (m : M A) (f : A → B) s :
  (x ← m; mret (f x)) s = map_result f (m s).
Proof.
  run_monad. destruct (m s) as [a s1 t1| |]; cbn; [|done..].
  by rewrite app_nil_r.
Qed.

Lemma init_eq s : io_alloc_cache_init s = Ok () (drained s) [].
Proof. done. Qed.

Lemma plain_step_eq fuel o s :
  Plain.step fuel o s =
  match o with
  | op_init => Ok o_unit (drained s) []
  | op_put e => map_result o_bool (Plain.io_alloc_cache_put e s)
  | op_get _ => map_result o_ptr (Plain.io_alloc_cache_get s)
  | op_free _ => map_result (λ _, o_unit) (Plain.io_alloc_cache_free fuel s)
  end.
Proof.
  destruct o; cbn [Plain.step]; [done|apply bind_mret..].
Qed.

Lemma kasan_step_eq fuel o s :
  Kasan.step fuel o s =
  match o with
  | op_init => Ok o_unit (drained s) []
  | op_put e => map_result o_bool (Kasan.io_alloc_cache_put e s)
  | op_get size => map_result o_ptr (Kasan.io_alloc_cache_get size s)
  | op_free size => map_result (λ _, o_unit) (Kasan.io_alloc_cache_free fuel size s)
  end.
Proof.
  destruct o; cbn [Kasan.step]; [done|apply bind_mret..].
Qed.

Lemma plain_run_cons fuel o ops s :
  Plain.run fuel (o :: ops) s =
  match Plain.step fuel o s with
  | Ok r s1 t1 => log_before t1 (map_result (cons r) (Plain.run fuel ops s1))
  | Fault => Fault
  | OutOfFuel => OutOfFuel
  end.
Proof.
  cbn [Plain.run]. unfold mbind at 1. unfold M_bind at 1.
  destruct (Plain.step fuel o s) as [r s1 t1| |]; [|done..].
  rewrite bind_mret. by destruct (Plain.run fuel ops s1).
Qed.

Lemma kasan_run_cons fuel o ops s :
  Kasan.run fuel (o :: ops) s =
  match Kasan.step fuel o s with
  | Ok r s1 t1 => log_before t1 (map_result (cons r) (Kasan.run fuel ops s1))
  | Fault => Fault
  | OutOfFuel => OutOfFuel
  end.
Proof.
  cbn [Kasan.run]. unfold mbind at 1. unfold M_bind at 1.
  destruct (Kasan.step fuel o s) as [r s1 t1| |]; [|done..].
  rewrite bind_mret. by destruct (Kasan.run fuel ops s1).
Qed.

Lemma plain_run_nil fuel s : Plain.run fuel [] s = Ok [] s [].
Proof. done. Qed.

Lemma kasan_run_nil fuel s : Kasan.run fuel [] s = Ok [] s [].
Proof. done. Qed.

(** ** Put on a full cache, get on an empty one *)

(** C6: on a cache whose counter has reached IO_ALLOC_CACHE_MAX, put returns
    false in both revisions, hands back the very same state (head, counter,
    memory and with it every link field, the entry's included) and logs no
    call-out, so the poison hook is not invoked. *)
Theorem C6_put_full_mutates_nothing (s : machine) (e : Z) :
  IO_ALLOC_CACHE_MAX ≤ count s →
  Plain.io_alloc_cache_put e s = Ok false s [] ∧
  Kasan.io_alloc_cache_put e s = Ok false s [].
Proof.
  intros Hfull. rewrite plain_put_eq, kasan_put_eq.
  rewrite bool_decide_eq_false_2 by lia. done.
Qed.

(** C7: with the list head NULL, get returns NULL in both revisions and
    hands back the state unchanged, with nothing logged. *)
Theorem C7_get_empty (s : machine) :
  head s = NULL →
  Plain.io_alloc_cache_get s = Ok NULL s [] ∧
  ∀ size, Kasan.io_alloc_cache_get size s = Ok NULL s [].
Proof.
  intros Hh. split; [|intros size];
    rewrite ?plain_get_eq, ?kasan_get_eq;
    by rewrite bool_decide_eq_false_2 by tauto.
Qed.

(** C8: on a non-empty chain whose head node is an object [o], get returns
    the head entry, moves the head to the link stored in [o] and leaves
    nr_cached and the memory as they were; and whenever get returns, in
    either revision, nr_cached is what it was before the call. *)
Theorem C8_get_advances_head_keeps_count (s : machine) :
  (∀ o, head s ≠ NULL → mem s !! head s = Some o →
     ∃ s', Plain.io_alloc_cache_get s = Ok (head s) s' [] ∧
           (∀ size, Kasan.io_alloc_cache_get size s =
                    Ok (head s) s' [EvUnpoison (head s) size]) ∧
           head s' = obj_next o ∧ count s' = count s ∧ mem s' = mem s) ∧
  (∀ e s' t, Plain.io_alloc_cache_get s = Ok e s' t → count s' = count s) ∧
  (∀ size e s' t, Kasan.io_alloc_cache_get size s = Ok e s' t → count s' = count s).
Proof.
  split_and!.
  - intros o Hn Ho. exists (with_head (obj_next o) s).
    split_and!; [|intros size|done..];
      rewrite ?plain_get_eq, ?kasan_get_eq;
      rewrite bool_decide_eq_true_2 by done; by rewrite Ho.
  - intros e s' t. rewrite plain_get_eq.
    case_bool_decide; [destruct (mem s !! head s)|]; by intros [= <- <- <-].
  - intros size e s' t. rewrite kasan_get_eq.
    case_bool_decide; [destruct (mem s !! head s)|]; by intros [= <- <- <-].
Qed.

Lemma C6_put_full_witness :
  IO_ALLOC_CACHE_MAX ≤ count full_cache ∧
  Plain.io_alloc_cache_put 8 full_cache = Ok false full_cache [] ∧
  Kasan.io_alloc_cache_put 8 full_cache = Ok false full_cache [].
Proof.
  split; [|apply (C6_put_full_mutates_nothing full_cache 8)];
    unfold IO_ALLOC_CACHE_MAX, count; cbn; lia.
Defined.

Lemma C7_get_empty_witness :
  head fresh_cache = NULL ∧
  Plain.io_alloc_cache_get fresh_cache = Ok NULL fresh_cache [] ∧
  ∀ size, Kasan.io_alloc_cache_get size fresh_cache = Ok NULL fresh_cache [].
Proof.
  split; [reflexivity|apply (C7_get_empty fresh_cache); reflexivity].
Defined.

Lemma C8_get_witness :
  head stacked_cache ≠ NULL ∧
  mem stacked_cache !! head stacked_cache = Some (mk_object 16 [Byte.x03]) ∧
  ∃ s', Plain.io_alloc_cache_get stacked_cache = Ok 24 s' [] ∧
        (∀ size, Kasan.io_alloc_cache_get size stacked_cache =
                 Ok 24 s' [EvUnpoison 24 size]) ∧
        head s' = 16 ∧ count s' = 3 ∧ mem s' = linked_objects.
Proof.
  assert (Hn : head stacked_cache ≠ NULL) by (vm_compute; discriminate).
  assert (Ho : mem stacked_cache !! head stacked_cache = Some (mk_object 16 [Byte.x03]))
    by (vm_compute; reflexivity).
  split; [exact Hn|]. split; [exact Ho|].
  exact (proj1 (C8_get_advances_head_keeps_count stacked_cache) _ Hn Ho).
Defined.

(** ** Put followed by get *)

Lemma plain_put_true_inv e s s' t :
  Plain.io_alloc_cache_put e s = Ok true s' t →
  count s < IO_ALLOC_CACHE_MAX ∧ e ≠ NULL ∧
  ∃ o, mem s !! e = Some o ∧ s' = pushed e o s ∧ t = [].
Proof.
  rewrite plain_put_eq.
  case_bool_decide as Hc; [|done].
  case_bool_decide as Hn; [done|].
  destruct (mem s !! e) as [o|]; [|done].
  intros [= <- <-]. eauto 6.
Qed.

Lemma plain_put_valid e s :
  count s < IO_ALLOC_CACHE_MAX → valid (mem s) e →
  ∃ o, mem s !! e = Some o ∧
       Plain.io_alloc_cache_put e s = Ok true (pushed e o s) [].
Proof.
  intros Hc [Hn [o Ho]]. exists o. split; [done|].
  rewrite plain_put_eq, bool_decide_eq_true_2, bool_decide_eq_false_2 by done.
  by rewrite Ho.
Qed.

Lemma kasan_put_valid e s :
  count s < IO_ALLOC_CACHE_MAX → valid (mem s) e →
  ∃ o, mem s !! e = Some o ∧
       Kasan.io_alloc_cache_put e s = Ok true (pushed e o s) [EvPoison e].
Proof.
  intros Hc [Hn [o Ho]]. exists o. split; [done|].
  rewrite kasan_put_eq, bool_decide_eq_true_2, bool_decide_eq_false_2 by done.
  by rewrite Ho.
Qed.

(** Get right after a successful put pops the entry that was pushed and
    restores the head; the counter keeps the value put gave it. *)
Lemma plain_get_pushed e o s :
  e ≠ NULL →
  Plain.io_alloc_cache_get (pushed e o s) =
  Ok e (with_head (head s) (pushed e o s)) [].
Proof.
  intros Hn. rewrite plain_get_eq.
  change (head (pushed e o s)) with e.
  rewrite bool_decide_eq_true_2 by done.
  cbn [mem pushed]. by rewrite lookup_insert_eq.
Qed.

Lemma links_insert m e v o :
  links (<[e := set_next v o]> m) = <[e := v]> (links m).
Proof. unfold links. by rewrite fmap_insert. Qed.

Lemma payloads_insert m e v o :
  m !! e = Some o → payloads (<[e := set_next v o]> m) = payloads m.
Proof.
  intros Ho. unfold payloads. rewrite fmap_insert. cbn.
  apply insert_id. by rewrite lookup_fmap, Ho.
Qed.

Lemma links_lookup m1 m2 e o :
  links m1 = links m2 → m2 !! e = Some o →
  ∃ o', m1 !! e = Some o' ∧ obj_next o' = obj_next o.
Proof.
  intros Hl Ho. apply (f_equal (.!! e)) in Hl.
  unfold links in Hl. rewrite !lookup_fmap, Ho in Hl.
  destruct (m1 !! e) as [o'|]; [|done].
  exists o'. split; [done|]. by injection Hl.
Qed.

(** C5: when put(e) succeeds, the get that follows returns e.  The payload
    of every object (e's included) is what it was before the put, so nothing
    outside link fields was written; and the two calls do not depend on any
    payload byte: on a state with the same cache and the same links but
    other payloads they give the same results, the same cache and the same
    links, and leave those other payloads in place. *)
Theorem C5_put_get_round_trip (s s1 : machine) (e : Z) (t1 : list event) :
  Plain.io_alloc_cache_put e s = Ok true s1 t1 →
  ∃ s2 t2,
    Plain.io_alloc_cache_get s1 = Ok e s2 t2 ∧
    payloads (mem s2) = payloads (mem s) ∧
    head s2 = head s ∧
    ∀ r, cache r = cache s → links (mem r) = links (mem s) →
      ∃ r1 r2,
        Plain.io_alloc_cache_put e r = Ok true r1 t1 ∧
        Plain.io_alloc_cache_get r1 = Ok e r2 t2 ∧
        cache r2 = cache s2 ∧ links (mem r2) = links (mem s2) ∧
        payloads (mem r2) = payloads (mem r).
Proof.
  intros Hput.
  destruct (plain_put_true_inv _ _ _ _ Hput) as (Hc & Hn & o & Ho & -> & ->).
  exists (with_head (head s) (pushed e o s)), [].
  split_and!; [by apply plain_get_pushed|by apply payloads_insert|done|].
  intros r Hcache Hlinks.
  destruct (links_lookup _ _ _ _ Hlinks Ho) as (o' & Ho' & Hnext).
  assert (Hcount : count r = count s) by (unfold count; by rewrite Hcache).
  assert (Hhead : head r = head s) by (unfold head; by rewrite Hcache).
  destruct (plain_put_valid e r) as (o2 & Ho2 & Hput');
    [lia|split; [done|by eexists]|].
  rewrite Ho' in Ho2. injection Ho2 as <-.
  exists (pushed e o' r), (with_head (head r) (pushed e o' r)).
  split_and!; [done|by apply plain_get_pushed| | |by apply payloads_insert].
  - unfold with_head, pushed. cbn. by rewrite Hhead, Hcount.
  - cbn [mem with_head pushed]. by rewrite !links_insert, Hlinks, Hhead.
Qed.

Lemma C5_put_get_witness :
  Plain.io_alloc_cache_put 8 fresh_cache =
    Ok true (pushed 8 (mk_object NULL [Byte.x01]) fresh_cache) [] ∧
  ∃ s2 t2,
    Plain.io_alloc_cache_get (pushed 8 (mk_object NULL [Byte.x01]) fresh_cache) =
      Ok 8 s2 t2 ∧
    payloads (mem s2) = payloads (mem fresh_cache) ∧
    head s2 = head fresh_cache ∧
    ∀ r, cache r = cache fresh_cache → links (mem r) = links (mem fresh_cache) →
      ∃ r1 r2,
        Plain.io_alloc_cache_put 8 r = Ok true r1 [] ∧
        Plain.io_alloc_cache_get r1 = Ok 8 r2 t2 ∧
        cache r2 = cache s2 ∧ links (mem r2) = links (mem s2) ∧
        payloads (mem r2) = payloads (mem r).
Proof.
  assert (Hput : Plain.io_alloc_cache_put 8 fresh_cache =
            Ok true (pushed 8 (mk_object NULL [Byte.x01]) fresh_cache) [])
    by (vm_compute; reflexivity).
  split; [exact Hput|].
  exact (C5_put_get_round_trip fresh_cache _ 8 [] Hput).
Defined.

(** ** LIFO order *)

Lemma plain_run_put_inv fuel e ops s b outs s' t :
  Plain.run fuel (op_put e :: ops) s = Ok (o_bool b :: outs) s' t →
  ∃ s1 t1 t2,
    Plain.io_alloc_cache_put e s = Ok b s1 t1 ∧
    Plain.run fuel ops s1 = Ok outs s' t2 ∧ t = t1 ++ t2.
Proof.
  rewrite plain_run_cons, plain_step_eq.
  destruct (Plain.io_alloc_cache_put e s) as [b1 s1 t1| |]; [|done..].
  cbn. destruct (Plain.run fuel ops s1) as [rs s2 t2| |] eqn:Hr; [|done..].
  cbn. intros [= <- <- <- <-]. by exists s1, t1, t2.
Qed.

Lemma plain_run_get fuel size ops s e s1 :
  Plain.io_alloc_cache_get s = Ok e s1 [] →
  Plain.run fuel (op_get size :: ops) s =
  map_result (cons (o_ptr e)) (Plain.run fuel ops s1).
Proof.
  intros Hg. rewrite plain_run_cons, plain_step_eq, Hg. cbn.
  by destruct (Plain.run fuel ops s1).
Qed.

Lemma plain_get_head s o :
  head s ≠ NULL → mem s !! head s = Some o →
  Plain.io_alloc_cache_get s = Ok (head s) (with_head (obj_next o) s) [].
Proof.
  intros Hn Ho. rewrite plain_get_eq, bool_decide_eq_true_2 by done.
  by rewrite Ho.
Qed.

Lemma plain_lifo_order (fuel : nat) (s s1 : machine) (a b c sz1 sz2 sz3 : Z)
    (t1 : list event) :
  a ≠ b → a ≠ c → b ≠ c →
  Plain.run fuel [op_put a; op_put b; op_put c] s =
    Ok [o_bool true; o_bool true; o_bool true] s1 t1 →
  ∃ s2,
    Plain.run fuel [op_get sz1; op_get sz2; op_get sz3] s1 =
      Ok [o_ptr c; o_ptr b; o_ptr a] s2 [] ∧
    head s2 = head s.
Proof.
  intros Hab Hac Hbc Hrun.
  apply plain_run_put_inv in Hrun as (sa & ta & t' & Ha & Hrun & _).
  apply plain_run_put_inv in Hrun as (sb & tb & t'' & Hb & Hrun & _).
  apply plain_run_put_inv in Hrun as (sc & tc & t''' & Hc & Hrun & _).
  rewrite plain_run_nil in Hrun. injection Hrun as <- _.
  apply plain_put_true_inv in Ha as (_ & Hna & oa & Hoa & -> & _).
  apply plain_put_true_inv in Hb as (_ & Hnb & ob & Hob & -> & _).
  apply plain_put_true_inv in Hc as (_ & Hnc & oc & Hoc & -> & _).
  set (sa := pushed a oa s) in *.
  set (sb := pushed b ob sa) in *.
  set (sc := pushed c oc sb) in *.
  set (g1 := with_head b sc).
  set (g2 := with_head a g1).
  set (g3 := with_head (head s) g2).
  assert (H1 : Plain.io_alloc_cache_get sc = Ok c g1 []).
  { rewrite (plain_get_head sc (set_next b oc)); [done|done|].
    cbn. by rewrite lookup_insert_eq. }
  assert (H2 : Plain.io_alloc_cache_get g1 = Ok b g2 []).
  { rewrite (plain_get_head g1 (set_next a ob)); [done|done|].
    cbn. rewrite lookup_insert_ne by done. by rewrite lookup_insert_eq. }
  assert (H3 : Plain.io_alloc_cache_get g2 = Ok a g3 []).
  { rewrite (plain_get_head g2 (set_next (head s) oa)); [done|done|].
    cbn. rewrite !lookup_insert_ne by done. by rewrite lookup_insert_eq. }
  exists g3. split; [|done].
  rewrite (plain_run_get _ _ _ _ _ _ H1), (plain_run_get _ _ _ _ _ _ H2),
    (plain_run_get _ _ _ _ _ _ H3).
  done.
Qed.


(** C3: if put(a); put(b); put(c) all return true, with a, b and c
    pairwise distinct, then the next three gets return c, then b, then a
    (and the head is back where it was before the puts). *)
Theorem C3_lifo_order (fuel : nat) (s s1 : machine) (a b c sz1 sz2 sz3 : Z)
    (t1 : list event) :
  a ≠ b → a ≠ c → b ≠ c →
  Plain.run fuel [op_put a; op_put b; op_put c] s =
    Ok [o_bool true; o_bool true; o_bool true] s1 t1 →
  ∃ s2 t2,
    Plain.run fuel [op_get sz1; op_get sz2; op_get sz3] s1 =
      Ok [o_ptr c; o_ptr b; o_ptr a] s2 t2 ∧
    head s2 = head s.
Proof.
  intros Hab Hac Hbc Hrun.
  destruct (plain_lifo_order fuel s s1 a b c sz1 sz2 sz3 t1 Hab Hac Hbc Hrun)
    as (s2 & Hg & Hh).
  by exists s2, [].
Qed.

Lemma C3_lifo_witness :
  (8:Z) ≠ 16 ∧ (8:Z) ≠ 24 ∧ (16:Z) ≠ 24 ∧
  ∃ s1,
    Plain.run 0 [op_put 8; op_put 16; op_put 24] fresh_cache =
      Ok [o_bool true; o_bool true; o_bool true] s1 [] ∧
    ∃ s2 t2,
      Plain.run 0 [op_get 0; op_get 0; op_get 0] s1 =
        Ok [o_ptr 24; o_ptr 16; o_ptr 8] s2 t2 ∧
      head s2 = head fresh_cache.
Proof.
  assert (H1 : (8:Z) ≠ 16) by lia.
  assert (H2 : (8:Z) ≠ 24) by lia.
  assert (H3 : (16:Z) ≠ 24) by lia.
  split_and!; [exact H1|exact H2|exact H3|].
  eexists. split; [vm_compute; reflexivity|].
  eapply (C3_lifo_order 0 fresh_cache _ 8 16 24 0 0 0 [] H1 H2 H3).
  vm_compute; reflexivity.
Defined.

(** ** Drain *)

Lemma drained_get_plain s : Plain.io_alloc_cache_get (drained s) = Ok NULL (drained s) [].
Proof. by rewrite plain_get_eq. Qed.

Lemma drained_get_kasan size s :
  Kasan.io_alloc_cache_get size (drained s) = Ok NULL (drained s) [].
Proof. by rewrite kasan_get_eq. Qed.

Lemma drained_idem s : drained (drained s) = drained s.
Proof. done. Qed.

Lemma drained_id s : head s = NULL → count s = 0 → drained s = s.
Proof.
  destruct s as [m [[h] n]]. unfold head, count, drained. cbn.
  by intros -> ->.
Qed.

(** C4: drain (io_alloc_cache_free) in both revisions.  On a state whose
    head starts a chain [l], the loop returns once it has more than
    [length l] units of fuel, and the callback log is [l].  Whenever the
    loop returns, from any state at all, the head did start a chain [l]
    without repetition, the callback was called on exactly the entries of
    [l], once each and in chain order, nr_cached is 0, and get on the
    resulting state returns NULL. *)
Theorem C4_drain_complete (s : machine) :
  (∀ l fuel size, chain (mem s) (head s) l → (length l < fuel)%nat →
     ∃ t t',
       Plain.io_alloc_cache_free fuel s = Ok () (drained s) t ∧
       Kasan.io_alloc_cache_free fuel size s = Ok () (drained s) t' ∧
       destroyed t = l ∧ destroyed t' = l) ∧
  (∀ fuel size s' t,
     Plain.io_alloc_cache_free fuel s = Ok () s' t ∨
     Kasan.io_alloc_cache_free fuel size s = Ok () s' t →
     ∃ l, chain (mem s) (head s) l ∧ NoDup l ∧ destroyed t = l ∧
          count s' = 0 ∧ head s' = NULL ∧ mem s' = mem s ∧
          Plain.io_alloc_cache_get s' = Ok NULL s' [] ∧
          ∀ size', Kasan.io_alloc_cache_get size' s' = Ok NULL s' []).
Proof.
  split.
  - intros l fuel size Hc Hlen.
    exists (EvFree <$> l), (kasan_free_log size l).
    split_and!; [by apply plain_free_chain|by apply kasan_free_chain
                |apply destroyed_plain_log|apply destroyed_kasan_log].
  - intros fuel size s' t [H|H].
    + apply plain_free_inv in H as (l & Hc & _ & -> & ->).
      exists l. split_and!;
        [done|by eapply chain_NoDup|apply destroyed_plain_log|done..].
    + apply kasan_free_inv in H as (l & Hc & _ & -> & ->).
      exists l. split_and!;
        [done|by eapply chain_NoDup|apply destroyed_kasan_log|done..].
Qed.

Lemma stacked_chain : chain (mem stacked_cache) (head stacked_cache) [24; 16; 8].
Proof.
  change (head stacked_cache) with 24. change (mem stacked_cache) with linked_objects.
  apply (chain_cons _ 24 (mk_object 16 [Byte.x03])); [done|done|].
  apply (chain_cons _ 16 (mk_object 8 [Byte.x02])); [done|done|].
  apply (chain_cons _ 8 (mk_object NULL [Byte.x01])); [done|done|].
  apply chain_nil.
Defined.

Lemma C4_drain_witness :
  chain (mem stacked_cache) (head stacked_cache) [24; 16; 8] ∧
  (length [24; 16; 8] < 4)%nat ∧
  (∃ t t',
     Plain.io_alloc_cache_free 4 stacked_cache = Ok () (drained stacked_cache) t ∧
     Kasan.io_alloc_cache_free 4 64 stacked_cache = Ok () (drained stacked_cache) t' ∧
     destroyed t = [24; 16; 8] ∧ destroyed t' = [24; 16; 8]) ∧
  Plain.io_alloc_cache_free 4 stacked_cache =
    Ok () (drained stacked_cache) [EvFree 24; EvFree 16; EvFree 8] ∧
  ∃ l, chain (mem stacked_cache) (head stacked_cache) l ∧ NoDup l ∧
       destroyed [EvFree 24; EvFree 16; EvFree 8] = l ∧
       count (drained stacked_cache) = 0 ∧ head (drained stacked_cache) = NULL ∧
       mem (drained stacked_cache) = mem stacked_cache ∧
       Plain.io_alloc_cache_get (drained stacked_cache) =
         Ok NULL (drained stacked_cache) [] ∧
       ∀ size', Kasan.io_alloc_cache_get size' (drained stacked_cache) =
                Ok NULL (drained stacked_cache) [].
Proof.
  assert (Hlen : (length [24; 16; 8] < 4)%nat) by (cbn; lia).
  assert (Hrun : Plain.io_alloc_cache_free 4 stacked_cache =
                 Ok () (drained stacked_cache) [EvFree 24; EvFree 16; EvFree 8])
    by (vm_compute; reflexivity).
  split_and!; [exact stacked_chain|exact Hlen| |exact Hrun|].
  - exact (proj1 (C4_drain_complete stacked_cache) _ 4%nat 64 stacked_chain Hlen).
  - exact (proj2 (C4_drain_complete stacked_cache) 4%nat 64 _ _ (or_introl Hrun)).
Defined.

(** C9: drain is idempotent in both revisions.  After a drain that
    returned, a second drain returns with no callback call (its log is
    empty) and the same state; and a drain on a cache whose head is NULL
    calls nothing and leaves head NULL and nr_cached 0, which is the state
    it started in when nr_cached was already 0. *)
Theorem C9_drain_idempotent (s : machine) :
  (∀ fuel size s' t,
     Plain.io_alloc_cache_free fuel s = Ok () s' t ∨
     Kasan.io_alloc_cache_free fuel size s = Ok () s' t →
     ∀ fuel2 size2,
       Plain.io_alloc_cache_free (S fuel2) s' = Ok () s' [] ∧
       Kasan.io_alloc_cache_free (S fuel2) size2 s' = Ok () s' []) ∧
  (head s = NULL →
     ∀ fuel size,
       Plain.io_alloc_cache_free (S fuel) s = Ok () (drained s) [] ∧
       Kasan.io_alloc_cache_free (S fuel) size s = Ok () (drained s) [] ∧
       head (drained s) = NULL ∧ count (drained s) = 0 ∧
       (count s = 0 → drained s = s)).
Proof.
  split.
  - intros fuel size s' t H fuel2 size2.
    assert (Hs : s' = drained s).
    { destruct H as [H|H];
        [apply plain_free_inv in H|apply kasan_free_inv in H];
        by destruct H as (l & _ & _ & -> & _). }
    subst s'. by rewrite plain_free_S, kasan_free_S.
  - intros Hh fuel size.
    rewrite plain_free_S, kasan_free_S.
    rewrite bool_decide_eq_false_2 by tauto.
    rewrite with_count_drained by done.
    split_and!; [done..|]. intros Hc. by apply drained_id.
Qed.

Lemma C9_drain_witness :
  Plain.io_alloc_cache_free 4 stacked_cache =
    Ok () (drained stacked_cache) [EvFree 24; EvFree 16; EvFree 8] ∧
  (∀ fuel2 size2,
     Plain.io_alloc_cache_free (S fuel2) (drained stacked_cache) =
       Ok () (drained stacked_cache) [] ∧
     Kasan.io_alloc_cache_free (S fuel2) size2 (drained stacked_cache) =
       Ok () (drained stacked_cache) []) ∧
  head fresh_cache = NULL ∧
  ∀ fuel size,
    Plain.io_alloc_cache_free (S fuel) fresh_cache = Ok () (drained fresh_cache) [] ∧
    Kasan.io_alloc_cache_free (S fuel) size fresh_cache = Ok () (drained fresh_cache) [] ∧
    head (drained fresh_cache) = NULL ∧ count (drained fresh_cache) = 0 ∧
    (count fresh_cache = 0 → drained fresh_cache = fresh_cache).
Proof.
  assert (Hrun : Plain.io_alloc_cache_free 4 stacked_cache =
                 Ok () (drained stacked_cache) [EvFree 24; EvFree 16; EvFree 8])
    by (vm_compute; reflexivity).
  assert (Hh : head fresh_cache = NULL) by reflexivity.
  split_and!; [exact Hrun| |exact Hh|].
  - exact (proj1 (C9_drain_idempotent stacked_cache) 4%nat 0 _ _ (or_introl Hrun)).
  - exact (proj2 (C9_drain_idempotent fresh_cache) Hh).
Defined.

(** ** The two revisions agree up to the KASAN hooks *)

Lemma erase_put e s :
  erase_result (Kasan.io_alloc_cache_put e s) = Plain.io_alloc_cache_put e s.
Proof.
  rewrite kasan_put_eq, plain_put_eq.
  repeat case_bool_decide; try done.
  by destruct (mem s !! e).
Qed.

Lemma erase_get size s :
  erase_result (Kasan.io_alloc_cache_get size s) = Plain.io_alloc_cache_get s.
Proof.
  rewrite kasan_get_eq, plain_get_eq.
  case_bool_decide; [|done].
  by destruct (mem s !! head s).
Qed.

Lemma erase_log_before {A} t0 (r : result A) :
  erase_result (log_before t0 r) = log_before (erase_kasan t0) (erase_result r).
Proof. destruct r; cbn; [|done..]. by rewrite erase_kasan_app. Qed.

Lemma erase_map_result {A B} (f : A → B) (r : result A) :
  erase_result (map_result f r) = map_result f (erase_result r).
Proof. by destruct r. Qed.

Lemma erase_free fuel size s :
  erase_result (Kasan.io_alloc_cache_free fuel size s) =
  Plain.io_alloc_cache_free fuel s.
Proof.
  revert s. induction fuel as [|fuel IH]; intros s; [done|].
  rewrite kasan_free_S, plain_free_S.
  case_bool_decide; [|done].
  destruct (mem s !! head s) as [o|]; [|done].
  rewrite erase_log_before, IH. done.
Qed.

Lemma erase_step fuel o s :
  erase_result (Kasan.step fuel o s) = Plain.step fuel o s.
Proof.
  rewrite kasan_step_eq, plain_step_eq.
  destruct o as [|e|size|size]; [done|..]; rewrite erase_map_result.
  - by rewrite erase_put.
  - by rewrite erase_get.
  - by rewrite erase_free.
Qed.

Lemma erase_run fuel ops s :
  erase_result (Kasan.run fuel ops s) = Plain.run fuel ops s.
Proof.
  revert s. induction ops as [|o ops IH]; intros s; [done|].
  rewrite kasan_run_cons, plain_run_cons, <- erase_step.
  destruct (Kasan.step fuel o s) as [r s1 t1| |]; [|done..].
  cbn [erase_result].
  by rewrite erase_log_before, erase_map_result, IH.
Qed.

(** C10: for every sequence of init, put, get and free operations, every
    start state, every fuel and every size passed to the [Kasan] get and
    free, the [Kasan] revision gives what the [Plain] one gives once the
    KASAN hook events are dropped from its log: both fault, both run out of
    fuel, or both return the same outcomes (put results, entries returned
    by get), the same final state (head, nr_cached, memory) and the same
    sequence of callback calls.  The [Plain] log holds callback calls only. *)
Theorem C10_revisions_agree (fuel : nat) (ops : list op) (s : machine) :
  erase_result (Kasan.run fuel ops s) = Plain.run fuel ops s ∧
  erase_result (Plain.run fuel ops s) = Plain.run fuel ops s.
Proof.
  split; [apply erase_run|].
  rewrite <- erase_run.
  destruct (Kasan.run fuel ops s) as [r s1 t1| |]; [|done..].
  cbn. f_equal.
  induction t1 as [|[e|e n|e] t1 IH]; cbn; [done|done|done|by rewrite IH].
Qed.

(** ** The capacity bound *)

Lemma valid_insert m e o p :
  is_Some (m !! e) → valid (<[e := o]> m) p ↔ valid m p.
Proof.
  intros He. unfold valid.
  destruct (decide (e = p)) as [->|Hne].
  - rewrite lookup_insert_eq. split; intros [? _]; split; eauto.
  - by rewrite lookup_insert_ne.
Qed.

Lemma count_pushed e o s :
  0 ≤ count s < IO_ALLOC_CACHE_MAX → count (pushed e o s) = count s + 1.
Proof.
  intros Hc. unfold pushed, count at 1. cbn.
  unfold IO_ALLOC_CACHE_MAX in Hc. unfold UINT_MODULUS.
  apply Z.mod_small. lia.
Qed.

Lemma plain_puts_from (fuel : nat) (es : list Z) (j : nat) (s : machine) :
  count s = Z.min (Z.of_nat j) IO_ALLOC_CACHE_MAX →
  Forall (valid (mem s)) (take (512 - j) es) →
  ∃ s',
    Plain.run fuel (op_put <$> es) s = Ok (put_outcomes_from j (length es)) s' [] ∧
    count s' = Z.min (Z.of_nat (j + length es)) IO_ALLOC_CACHE_MAX.
Proof.
  revert j s. induction es as [|e es IH]; intros j s Hc Hv.
  - exists s. split; [done|]. cbn. by rewrite Nat.add_0_r.
  - rewrite fmap_cons, length_cons, plain_run_cons, plain_step_eq.
    unfold put_outcomes_from. rewrite <- cons_seq, fmap_cons.
    fold (put_outcomes_from (S j) (length es)).
    unfold IO_ALLOC_CACHE_MAX in *.
    destruct (decide (j < 512)%nat) as [Hlt|Hge].
    + replace (512 - j)%nat with (S (511 - j)) in Hv by lia.
      cbn [take] in Hv. apply Forall_cons in Hv as [Hve Hv].
      destruct (plain_put_valid e s) as (o & Ho & ->);
        [unfold IO_ALLOC_CACHE_MAX; lia|done|].
      cbn [map_result log_before].
      destruct (IH (S j) (pushed e o s)) as (s' & -> & Hc').
      * rewrite count_pushed by (unfold IO_ALLOC_CACHE_MAX; lia). lia.
      * replace (512 - S j)%nat with (511 - j)%nat by lia.
        eapply Forall_impl; [exact Hv|].
        intros p Hp. cbn [mem pushed]. apply valid_insert; [by eexists|done].
      * exists s'. cbn. rewrite bool_decide_eq_true_2 by lia.
        split; [done|]. rewrite Hc'. f_equal. lia.
    + rewrite plain_put_eq.
      rewrite bool_decide_eq_false_2 by (unfold IO_ALLOC_CACHE_MAX; lia).
      cbn [map_result log_before].
      destruct (IH (S j) s) as (s' & -> & Hc').
      * lia.
      * replace (512 - S j)%nat with 0%nat by lia. constructor.
      * exists s'. cbn. rewrite bool_decide_eq_false_2 by lia.
        split; [done|]. rewrite Hc'. f_equal. lia.
Qed.

Lemma erase_result_Ok {A} (r : result A) a s t :
  erase_result r = Ok a s t → ∃ t', r = Ok a s t'.
Proof. destruct r; [|done..]. cbn. intros [= -> -> _]. eauto. Qed.

Lemma kasan_lifo_order (fuel : nat) (s s1 : machine) (a b c sz1 sz2 sz3 : Z)
    (t1 : list event) :
  a ≠ b → a ≠ c → b ≠ c →
  Kasan.run fuel [op_put a; op_put b; op_put c] s =
    Ok [o_bool true; o_bool true; o_bool true] s1 t1 →
  ∃ s2 t2,
    Kasan.run fuel [op_get sz1; op_get sz2; op_get sz3] s1 =
      Ok [o_ptr c; o_ptr b; o_ptr a] s2 t2 ∧
    head s2 = head s.
Proof.
  intros Hab Hac Hbc Hrun.
  pose proof (erase_run fuel [op_put a; op_put b; op_put c] s) as He.
  rewrite Hrun in He. cbn [erase_result] in He. symmetry in He.
  destruct (plain_lifo_order fuel s s1 a b c sz1 sz2 sz3 _ Hab Hac Hbc He)
    as (s2 & Hg & Hh).
  pose proof (erase_run fuel [op_get sz1; op_get sz2; op_get sz3] s1) as He2.
  rewrite Hg in He2. apply erase_result_Ok in He2 as [t2 Hk].
  by exists s2, t2.
Qed.

(** C1: from an initialized cache (the state io_alloc_cache_init leaves),
    a sequence of puts alone, of entries the header may dereference,
    returns true on its first 512 calls and false on every later one, in
    both revisions; after every prefix of the sequence nr_cached is the
    number of calls made so far capped at 512, hence never above 512. *)
Theorem C1_capacity_bound (fuel : nat) (s : machine) (es : list Z) (k : nat) :
  Forall (valid (mem s)) (take 512 es) →
  ∃ sk tk,
    Plain.run fuel (op_put <$> take k es) (drained s) =
      Ok (put_outcomes (length (take k es))) sk [] ∧
    Kasan.run fuel (op_put <$> take k es) (drained s) =
      Ok (put_outcomes (length (take k es))) sk tk ∧
    count sk = Z.min (Z.of_nat (length (take k es))) IO_ALLOC_CACHE_MAX ∧
    count sk ≤ IO_ALLOC_CACHE_MAX.
Proof.
  intros Hv.
  destruct (plain_puts_from fuel (take k es) 0 (drained s)) as (sk & Hrun & Hc).
  - done.
  - cbn [mem drained]. replace (512 - 0)%nat with 512%nat by lia.
    rewrite take_take.
    destruct (decide (512 ≤ k)%nat).
    + by rewrite Nat.min_l by lia.
    + rewrite Nat.min_r by lia.
      replace k with (Init.Nat.min k 512) by lia. rewrite <- take_take.
      by apply Forall_take.
  - pose proof (erase_run fuel (op_put <$> take k es) (drained s)) as He.
    rewrite Hrun in He. apply erase_result_Ok in He as [tk Hk].
    exists sk, tk. split_and!; [done|done|done|]. rewrite Hc. lia.
Qed.

Lemma C1_capacity_witness :
  Forall (valid (mem roomy_cache)) (take 512 many_entries) ∧
  ∃ sk tk,
    Plain.run 0 (op_put <$> take 520 many_entries) (drained roomy_cache) =
      Ok (put_outcomes (length (take 520 many_entries))) sk [] ∧
    Kasan.run 0 (op_put <$> take 520 many_entries) (drained roomy_cache) =
      Ok (put_outcomes (length (take 520 many_entries))) sk tk ∧
    count sk = Z.min (Z.of_nat (length (take 520 many_entries))) IO_ALLOC_CACHE_MAX ∧
    count sk ≤ IO_ALLOC_CACHE_MAX.
Proof.
  assert (Hv : Forall (valid (mem roomy_cache)) (take 512 many_entries))
    by (apply (bool_decide_unpack _); vm_compute; exact I).
  split; [exact Hv|].
  exact (C1_capacity_bound 0 roomy_cache many_entries 520 Hv).
Defined.

(** The 520 puts of the sample run: 512 times true, then 8 times false,
    and the counter stops at 512. *)
Example capacity_run_520 :
  put_outcomes 520 = replicate 512 (o_bool true) ++ replicate 8 (o_bool false) ∧
  match Plain.run 0 (op_put <$> many_entries) roomy_cache with
  | Ok outs s' _ => outs = put_outcomes 520 ∧ count s' = 512
  | _ => False
  end.
Proof. vm_compute. repeat split. Qed.

(** ** The counter and the chain *)

(** init, a put of an entry that is not on the chain, and free keep the
    counter equal to the length of the chain. *)
Lemma init_cache_inv s : cache_inv (drained s).
Proof. exists []. split; [constructor|done]. Qed.

Lemma chain_length_of_inv s l :
  chain (mem s) (head s) l → cache_inv s → count s = Z.of_nat (length l).
Proof.
  intros Hc (l' & Hc' & Hn). by rewrite (chain_functional _ _ _ _ Hc Hc').
Qed.

Lemma plain_put_cache_inv e s s' t l :
  chain (mem s) (head s) l → count s = Z.of_nat (length l) → e ∉ l →
  Plain.io_alloc_cache_put e s = Ok true s' t →
  chain (mem s') (head s') (e :: l) ∧ count s' = Z.of_nat (length (e :: l)).
Proof.
  intros Hc Hn Hnin Hput.
  apply plain_put_true_inv in Hput as (Hlt & Hne & o & Ho & -> & _).
  split.
  - change (head (pushed e o s)) with e. cbn [mem pushed].
    apply (chain_cons _ e (set_next (head s) o)); [done|by rewrite lookup_insert_eq|].
    by apply chain_insert_fresh.
  - rewrite count_pushed by lia. rewrite length_cons. lia.
Qed.

Lemma plain_free_cache_inv fuel s s' t :
  Plain.io_alloc_cache_free fuel s = Ok () s' t → cache_inv s'.
Proof.
  intros H. apply plain_free_inv in H as (l & _ & _ & -> & _).
  apply init_cache_inv.
Qed.

(** A get that pops an entry keeps the rest of the chain and leaves the
    counter one above its length: the invariant is lost. *)
Lemma plain_get_loses_cache_inv s e s' t :
  cache_inv s → head s ≠ NULL →
  Plain.io_alloc_cache_get s = Ok e s' t →
  (∃ l', chain (mem s') (head s') l' ∧ count s' = Z.of_nat (length l') + 1) ∧
  ¬ cache_inv s'.
Proof.
  intros (l & Hc & Hn) Hh. rewrite plain_get_eq, bool_decide_eq_true_2 by done.
  destruct (chain_inv _ _ _ Hc) as [[? _]|(_ & o & l' & Ho & -> & Hc')]; [done|].
  rewrite Ho. intros [= <- <- <-].
  assert (Hcnt : count (with_head (obj_next o) s) = Z.of_nat (length l') + 1).
  { change (count (with_head (obj_next o) s)) with (count s).
    rewrite Hn, length_cons. lia. }
  split; [by exists l'|].
  intros Hinv.
  pose proof (chain_length_of_inv (with_head (obj_next o) s) l' Hc' Hinv). lia.
Qed.

(** C2 fails on the code: init; put(8); get() on a cache with an object at
    8.  The put returns true and the get returns 8; afterwards the chain is
    empty (the head is NULL) while nr_cached is still 1, in both revisions,
    so the counter is not the length of the chain. *)
Theorem C2_count_stale_after_get :
  ∃ s',
    Plain.run 0 [op_init; op_put 8; op_get 0] fresh_cache =
      Ok [o_unit; o_bool true; o_ptr 8] s' [] ∧
    Kasan.run 0 [op_init; op_put 8; op_get 0] fresh_cache =
      Ok [o_unit; o_bool true; o_ptr 8] s' [EvPoison 8; EvUnpoison 8 0] ∧
    chain (mem s') (head s') [] ∧
    count s' = 1 ∧
    ¬ cache_inv s'.
Proof.
  eexists. split_and!; [vm_compute; reflexivity|vm_compute; reflexivity|..].
  - apply chain_nil.
  - reflexivity.
  - intros (l & Hc & Hn). apply chain_null in Hc. subst l. discriminate Hn.
Qed.

(** What the stale counter leads to: after 512 rounds of put(8); get()
    the chain is empty, nr_cached is 512, and the next put is refused. *)
Example put_refused_on_empty_chain :
  match Plain.run 0 (put_get_pairs 512) fresh_cache with
  | Ok _ s' _ =>
      head s' = NULL ∧ count s' = 512 ∧
      Plain.io_alloc_cache_put 8 s' = Ok false s' []
  | _ => False
  end.
Proof. vm_compute. repeat split. Qed.

(** * Further properties of the header *)

(** ** Faults and the NULL result *)



(** X3: a NULL result of get is unambiguous.  When get returns, the result
    is NULL exactly when the head was NULL, and a non-NULL result is the old
    head and an object of the memory.  Both revisions. *)
Theorem get_result_null_iff (s s' : machine) (size e : Z) (t : list event) :
  Plain.io_alloc_cache_get s = Ok e s' t ∨
  Kasan.io_alloc_cache_get size s = Ok e s' t →
  (e = NULL ↔ head s = NULL) ∧
  (e ≠ NULL → e = head s ∧ valid (mem s) e) ∧
  mem s' = mem s.
Proof.
  rewrite plain_get_eq, kasan_get_eq.
  case_bool_decide as Hn.
  - destruct (mem s !! head s) as [o|] eqn:Ho; [|by intros [?|?]].
    intros [[= <- <- <-]|[= <- <- <-]];
      (split_and!; [tauto| |done]); intros _;
      (split; [done|]); (split; [done|by eexists]).
  - assert (Hh : head s = NULL) by (destruct (decide (head s = NULL)); tauto).
    intros [[= <- <- <-]|[= <- <- <-]]; split_and!; done.
Qed.

Lemma get_result_null_witness :
  (24 = NULL ↔ head stacked_cache = NULL) ∧
  (24 ≠ NULL → 24 = head stacked_cache ∧ valid (mem stacked_cache) 24) ∧
  mem (with_head 16 stacked_cache) = mem stacked_cache.
Proof.
  apply (get_result_null_iff stacked_cache (with_head 16 stacked_cache) 0 24 []).
  left. vm_compute. reflexivity.
Defined.

(** ** What a get leaves behind *)

Lemma with_head_id s : with_head (head s) s = s.
Proof. by destruct s as [m [[h] n]]. Qed.

Lemma set_next_id o : set_next (obj_next o) o = o.
Proof. by destruct o as [[[nx]] bytes]. Qed.

(** X4: on a chain [l] a get that returns an entry returns the first node
    of [l]; the rest of [l] is the chain that stays in the cache and the
    returned entry is not on it any more.  Both revisions. *)
Theorem get_unlinks_entry (s s' : machine) (size e : Z) (t : list event)
    (l : list Z) :
  chain (mem s) (head s) l →
  Plain.io_alloc_cache_get s = Ok e s' t ∨
  Kasan.io_alloc_cache_get size s = Ok e s' t →
  e ≠ NULL →
  ∃ l', l = e :: l' ∧ chain (mem s') (head s') l' ∧ e ∉ l'.
Proof.
  intros Hc Hget Hne. revert Hget. rewrite plain_get_eq, kasan_get_eq.
  case_bool_decide as Hh; [|by intros [[= <- _ _]|[= <- _ _]]].
  destruct (chain_inv _ _ _ Hc) as [[? _]|(_ & o & l' & Ho & -> & Hc')]; [done|].
  pose proof (chain_NoDup _ _ _ Hc) as Hnd. apply NoDup_cons in Hnd as [Hnin _].
  rewrite Ho.
  intros [[= <- <- <-]|[= <- <- <-]]; by exists l'.
Qed.

Lemma get_unlinks_witness :
  ∃ l', [24; 16; 8] = 24 :: l' ∧
        chain (mem (with_head 16 stacked_cache)) (head (with_head 16 stacked_cache)) l' ∧
        24 ∉ l'.
Proof.
  assert (Hne : 24 ≠ NULL) by (vm_compute; discriminate).
  apply (get_unlinks_entry stacked_cache (with_head 16 stacked_cache) 0 24 []
           [24; 16; 8] stacked_chain); [|exact Hne].
  left. vm_compute. reflexivity.
Defined.

(** X5: putting back the entry a get just returned restores the memory and
    the head exactly; the only difference from the state before the get is
    nr_cached, which is one higher (get did not lower it, put raised it). *)
Theorem get_then_put_back (s s1 : machine) (e : Z) (t : list event) :
  Plain.io_alloc_cache_get s = Ok e s1 t →
  e ≠ NULL →
  count s < IO_ALLOC_CACHE_MAX →
  Plain.io_alloc_cache_put e s1 =
    Ok true (with_count ((count s + 1) mod UINT_MODULUS) s) [].
Proof.
  intros Hget Hne Hlt. revert Hget. rewrite plain_get_eq.
  case_bool_decide as Hn; [|by intros [= <- _ _]].
  destruct (mem s !! head s) as [o|] eqn:Ho; [|done].
  intros [= <- <- _].
  rewrite plain_put_eq.
  change (count (with_head (obj_next o) s)) with (count s).
  rewrite bool_decide_eq_true_2, bool_decide_eq_false_2 by done.
  cbn [mem with_head]. rewrite Ho. f_equal.
  unfold pushed, with_count.
  change (head (with_head (obj_next o) s)) with (obj_next o).
  change (count (with_head (obj_next o) s)) with (count s).
  cbn [mem with_head]. rewrite set_next_id, insert_id by done.
  destruct s as [m [[h] n]]. done.
Qed.

Lemma get_then_put_back_witness :
  Plain.io_alloc_cache_put 24 (with_head 16 stacked_cache) =
    Ok true (with_count ((count stacked_cache + 1) mod UINT_MODULUS) stacked_cache) [].
Proof.
  assert (Hne : 24 ≠ NULL) by (vm_compute; discriminate).
  assert (Hlt : count stacked_cache < IO_ALLOC_CACHE_MAX) by (vm_compute; reflexivity).
  apply (get_then_put_back stacked_cache (with_head 16 stacked_cache) 24 []);
    [vm_compute; reflexivity|exact Hne|exact Hlt].
Defined.

(** ** Putting an entry twice *)

Lemma plain_free_self_loop fuel (s : machine) (o : object) :
  head s ≠ NULL → mem s !! head s = Some o → obj_next o = head s →
  Plain.io_alloc_cache_free fuel s = OutOfFuel.
Proof.
  intros Hn Ho Hself. induction fuel as [|fuel IH]; [done|].
  rewrite plain_free_S, bool_decide_eq_true_2 by done.
  rewrite Ho, Hself, with_head_id, IH. done.
Qed.

Lemma kasan_free_self_loop fuel size (s : machine) (o : object) :
  head s ≠ NULL → mem s !! head s = Some o → obj_next o = head s →
  Kasan.io_alloc_cache_free fuel size s = OutOfFuel.
Proof.
  intros Hn Ho Hself. induction fuel as [|fuel IH]; [done|].
  rewrite kasan_free_S, bool_decide_eq_true_2 by done.
  rewrite Ho, Hself, with_head_id, IH. done.
Qed.

(** X6: two successful puts of the same entry in a row link the entry to
    itself.  From then on get returns that entry every time and leaves the
    state as it is, there is no chain from the head to NULL, and the free
    loop of either revision does not come to an end on any amount of fuel. *)
Theorem double_put_self_loop (s s1 s2 : machine) (e : Z) (t1 t2 : list event) :
  Plain.io_alloc_cache_put e s = Ok true s1 t1 →
  Plain.io_alloc_cache_put e s1 = Ok true s2 t2 →
  Plain.io_alloc_cache_get s2 = Ok e s2 [] ∧
  (∀ l, ¬ chain (mem s2) (head s2) l) ∧
  ∀ fuel size,
    Plain.io_alloc_cache_free fuel s2 = OutOfFuel ∧
    Kasan.io_alloc_cache_free fuel size s2 = OutOfFuel.
Proof.
  intros H1 H2.
  apply plain_put_true_inv in H1 as (_ & Hne & o & Ho & -> & _).
  apply plain_put_true_inv in H2 as (_ & _ & o1 & Ho1 & -> & _).
  set (s1 := pushed e o s) in *.
  set (s2 := pushed e o1 s1).
  assert (Hh : head s2 = e) by done.
  assert (Hm : mem s2 !! head s2 = Some (set_next e o1)).
  { rewrite Hh. cbn [mem s2 pushed]. by rewrite lookup_insert_eq. }
  assert (Hfree : ∀ fuel size,
            Plain.io_alloc_cache_free fuel s2 = OutOfFuel ∧
            Kasan.io_alloc_cache_free fuel size s2 = OutOfFuel).
  { intros fuel size. split;
      [eapply plain_free_self_loop|eapply kasan_free_self_loop];
      rewrite ?Hh; (done || by rewrite <- Hh at 1). }
  split_and!; [|intros l Hc|exact Hfree].
  - rewrite plain_get_eq, bool_decide_eq_true_2 by (by rewrite Hh).
    rewrite Hm. by rewrite <- Hh at 1.
  - pose proof (plain_free_chain (S (length l)) s2 l Hc) as Hr.
    rewrite (proj1 (Hfree _ 0)) in Hr. by specialize (Hr ltac:(lia)).
Qed.

Lemma double_put_witness :
  ∃ s2,
    Plain.io_alloc_cache_put 8 (pushed 8 (mk_object NULL [Byte.x01]) fresh_cache) =
      Ok true s2 [] ∧
    Plain.io_alloc_cache_get s2 = Ok 8 s2 [] ∧
    (∀ l, ¬ chain (mem s2) (head s2) l) ∧
    ∀ fuel size,
      Plain.io_alloc_cache_free fuel s2 = OutOfFuel ∧
      Kasan.io_alloc_cache_free fuel size s2 = OutOfFuel.
Proof.
  assert (H1 : Plain.io_alloc_cache_put 8 fresh_cache =
               Ok true (pushed 8 (mk_object NULL [Byte.x01]) fresh_cache) [])
    by (vm_compute; reflexivity).
  assert (H2 : Plain.io_alloc_cache_put 8 (pushed 8 (mk_object NULL [Byte.x01]) fresh_cache) =
               Ok true (pushed 8 (mk_object NULL [Byte.x01])
                          (pushed 8 (mk_object NULL [Byte.x01]) fresh_cache)) [])
    by (vm_compute; reflexivity).
  eexists. split; [exact H2|].
  exact (double_put_self_loop fresh_cache _ _ 8 [] [] H1 H2).
Defined.

(** ** Invariants of every run *)

Lemma plain_step_inv fuel o s r s' t :
  Plain.step fuel o s = Ok r s' t →
  match o with
  | op_init => r = o_unit ∧ s' = drained s ∧ t = []
  | op_put e =>
      (r = o_bool false ∧ s' = s ∧ t = [] ∧ IO_ALLOC_CACHE_MAX ≤ count s) ∨
      (r = o_bool true ∧ t = [] ∧ count s < IO_ALLOC_CACHE_MAX ∧ e ≠ NULL ∧
       ∃ ob, mem s !! e = Some ob ∧ s' = pushed e ob s)
  | op_get _ =>
      (r = o_ptr NULL ∧ s' = s ∧ t = [] ∧ head s = NULL) ∨
      (r = o_ptr (head s) ∧ t = [] ∧ head s ≠ NULL ∧
       ∃ ob, mem s !! head s = Some ob ∧ s' = with_head (obj_next ob) s)
  | op_free _ =>
      r = o_unit ∧ s' = drained s ∧
      ∃ l, chain (mem s) (head s) l ∧ t = EvFree <$> l
  end.
Proof.
  rewrite plain_step_eq. destruct o as [|e|size|size].
  - by intros [= <- <- <-].
  - rewrite plain_put_eq. case_bool_decide as Hc.
    + case_bool_decide as Hn; [done|].
      destruct (mem s !! e) as [ob|] eqn:Ho; [|done].
      intros [= <- <- <-]. right. split_and!; eauto.
    + intros [= <- <- <-]. left. split_and!; [done..|lia].
  - rewrite plain_get_eq. case_bool_decide as Hn.
    + destruct (mem s !! head s) as [ob|] eqn:Ho; [|done].
      intros [= <- <- <-]. right. split_and!; eauto.
    + intros [= <- <- <-]. left. split_and!; [done..|].
      destruct (decide (head s = NULL)); tauto.
  - destruct (Plain.io_alloc_cache_free fuel s) as [[] s1 t1| |] eqn:Hf; [|done..].
    intros [= <- <- <-].
    apply plain_free_inv in Hf as (l & Hc & _ & -> & ->). eauto.
Qed.

Lemma plain_run_cons_inv fuel o ops s outs s' t :
  Plain.run fuel (o :: ops) s = Ok outs s' t →
  ∃ r rs s1 t1 t2,
    Plain.step fuel o s = Ok r s1 t1 ∧ Plain.run fuel ops s1 = Ok rs s' t2 ∧
    outs = r :: rs ∧ t = t1 ++ t2.
Proof.
  rewrite plain_run_cons.
  destruct (Plain.step fuel o s) as [r s1 t1| |]; [|done..].
  destruct (Plain.run fuel ops s1) as [rs s2 t2| |] eqn:Hr; [|done..].
  cbn. intros [= <- <- <-]. by exists r, rs, s1, t1, t2.
Qed.

Lemma kasan_run_to_plain fuel ops s outs s' t :
  Kasan.run fuel ops s = Ok outs s' t →
  Plain.run fuel ops s = Ok outs s' (erase_kasan t).
Proof. intros H. by rewrite <- erase_run, H. Qed.





Lemma plain_step_count_bound fuel o s r s' t :
  0 ≤ count s ≤ IO_ALLOC_CACHE_MAX →
  Plain.step fuel o s = Ok r s' t →
  0 ≤ count s' ≤ IO_ALLOC_CACHE_MAX.
Proof.
  intros Hb H. apply plain_step_inv in H. destruct o as [|e|size|size].
  - destruct H as (_ & -> & _). by cbn.
  - destruct H as [(_ & -> & _)|(_ & _ & Hlt & _ & ob & _ & ->)]; [done|].
    rewrite count_pushed by lia. lia.
  - by destruct H as [(_ & -> & _)|(_ & _ & _ & ob & _ & ->)].
  - destruct H as (_ & -> & _). by cbn.
Qed.

Lemma plain_run_count_bound fuel ops s outs s' t :
  0 ≤ count s ≤ IO_ALLOC_CACHE_MAX →
  Plain.run fuel ops s = Ok outs s' t →
  0 ≤ count s' ≤ IO_ALLOC_CACHE_MAX.
Proof.
  revert s outs t. induction ops as [|o ops IH]; intros s outs t Hb H.
  - by injection H as _ <- _.
  - apply plain_run_cons_inv in H as (r & rs & s1 & t1 & t2 & Hs & Hr & _ & _).
    eapply IH; [|exact Hr]. by eapply plain_step_count_bound.
Qed.

(** X8: nr_cached stays between 0 and IO_ALLOC_CACHE_MAX along every
    sequence of init, put, get and free that starts within these bounds, in
    both revisions; in particular the increment in put never wraps. *)
Theorem run_count_bounded (fuel : nat) (ops : list op) (s s' : machine)
    (outs : list outcome) (t : list event) :
  0 ≤ count s ≤ IO_ALLOC_CACHE_MAX →
  Plain.run fuel ops s = Ok outs s' t ∨ Kasan.run fuel ops s = Ok outs s' t →
  0 ≤ count s' ≤ IO_ALLOC_CACHE_MAX.
Proof.
  intros Hb [H|H]; [|apply kasan_run_to_plain in H];
    by eapply plain_run_count_bound.
Qed.

Lemma run_count_bounded_witness :
  0 ≤ count (with_head 16 stacked_cache) ≤ IO_ALLOC_CACHE_MAX.
Proof.
  assert (Hb : 0 ≤ count stacked_cache ≤ IO_ALLOC_CACHE_MAX)
    by (vm_compute; split; discriminate).
  apply (run_count_bounded 0 [op_get 0] stacked_cache (with_head 16 stacked_cache)
           [o_ptr 24] [EvUnpoison 24 0] Hb).
  right. vm_compute. reflexivity.
Defined.

(** X9: between resets the counter counts accepted puts and nothing else.
    Along a sequence of puts and gets only, started with nr_cached between 0
    and IO_ALLOC_CACHE_MAX, nr_cached at the end is nr_cached at the start
    plus the number of puts that returned true; gets give no room back.
    Both revisions. *)
Theorem count_is_accepted_puts (fuel : nat) (ops : list op) (s s' : machine)
    (outs : list outcome) (t : list event) :
  forallb is_put_or_get ops = true →
  0 ≤ count s ≤ IO_ALLOC_CACHE_MAX →
  Plain.run fuel ops s = Ok outs s' t ∨ Kasan.run fuel ops s = Ok outs s' t →
  count s' = count s + successes outs ∧
  successes outs ≤ IO_ALLOC_CACHE_MAX - count s.
Proof.
  intros Hops Hb H.
  assert (Hp : ∃ t0, Plain.run fuel ops s = Ok outs s' t0).
  { destruct H as [H|H]; [by eexists|]. eexists. by apply kasan_run_to_plain. }
  clear H. destruct Hp as [t0 H].
  assert (Hc : count s' = count s + successes outs).
  { revert s outs t0 Hb H. induction ops as [|o ops IH]; intros s outs t0 Hb H.
    - injection H as <- <- _. cbn. lia.
    - apply plain_run_cons_inv in H as (r & rs & s1 & t1 & t2 & Hs & Hr & -> & _).
      cbn [forallb] in Hops. apply andb_prop in Hops as [Ho Hops].
      pose proof (plain_step_count_bound _ _ _ _ _ _ Hb Hs) as Hb1.
      rewrite (IH Hops _ _ _ Hb1 Hr).
      apply plain_step_inv in Hs. destruct o as [|e|size|size]; [done| | |done].
      + destruct Hs as [(-> & -> & _)|(-> & _ & Hlt & _ & ob & _ & ->)]; [cbn; lia|].
        rewrite count_pushed by lia. cbn [successes]. lia.
      + destruct Hs as [(-> & -> & _)|(-> & _ & _ & ob & _ & ->)]; cbn [successes]; [lia|].
        change (count (with_head (obj_next ob) s)) with (count s). lia. }
  split; [done|].
  assert (0 ≤ count s' ≤ IO_ALLOC_CACHE_MAX)
    by (eapply plain_run_count_bound; eauto).
  lia.
Qed.

Lemma count_is_accepted_puts_witness :
  ∃ s',
    Plain.run 0 [op_put 8; op_get 0; op_put 16; op_put 8; op_get 0] fresh_cache =
      Ok [o_bool true; o_ptr 8; o_bool true; o_bool true; o_ptr 8] s' [] ∧
    count s' = count fresh_cache + 3 ∧
    3 ≤ IO_ALLOC_CACHE_MAX - count fresh_cache.
Proof.
  assert (Hb : 0 ≤ count fresh_cache ≤ IO_ALLOC_CACHE_MAX)
    by (vm_compute; split; discriminate).
  eexists. split; [vm_compute; reflexivity|].
  apply (count_is_accepted_puts 0 [op_put 8; op_get 0; op_put 16; op_put 8; op_get 0]
           fresh_cache _ [o_bool true; o_ptr 8; o_bool true; o_bool true; o_ptr 8] []
           eq_refl Hb).
  left. vm_compute. reflexivity.
Defined.

(** ** Chains built by put and emptied by get *)

Lemma chain_pushed s l e o :
  chain (mem s) (head s) l → e ≠ NULL → e ∉ l →
  chain (mem (pushed e o s)) (head (pushed e o s)) (e :: l).
Proof.
  intros Hc Hne Hnin. change (head (pushed e o s)) with e. cbn [mem pushed].
  apply (chain_cons _ e (set_next (head s) o)); [done|by rewrite lookup_insert_eq|].
  by apply chain_insert_fresh.
Qed.

Lemma plain_run_app fuel ops1 ops2 s :
  Plain.run fuel (ops1 ++ ops2) s =
  match Plain.run fuel ops1 s with
  | Ok r1 s1 t1 => log_before t1 (map_result (app r1) (Plain.run fuel ops2 s1))
  | Fault => Fault
  | OutOfFuel => OutOfFuel
  end.
Proof.
  revert s. induction ops1 as [|o ops1 IH]; intros s.
  - cbn [app]. rewrite plain_run_nil. by destruct (Plain.run fuel ops2 s).
  - rewrite <- app_comm_cons, !plain_run_cons.
    destruct (Plain.step fuel o s) as [r s1 t1| |]; [|done..].
    rewrite IH. destruct (Plain.run fuel ops1 s1) as [r1 s2 t2| |]; [|done..].
    cbn. destruct (Plain.run fuel ops2 s2) as [r2 s3 t3| |]; [|done..].
    cbn. by rewrite app_assoc.
Qed.

Lemma plain_puts_chain (fuel : nat) (es : list Z) (s : machine) (l0 : list Z) :
  chain (mem s) (head s) l0 →
  NoDup es →
  (∀ e, e ∈ es → valid (mem s) e ∧ e ∉ l0) →
  0 ≤ count s → count s + Z.of_nat (length es) ≤ IO_ALLOC_CACHE_MAX →
  ∃ s',
    Plain.run fuel (op_put <$> es) s = Ok (replicate (length es) (o_bool true)) s' [] ∧
    chain (mem s') (head s') (reverse es ++ l0) ∧
    count s' = count s + Z.of_nat (length es).
Proof.
  revert s l0. induction es as [|e es IH]; intros s l0 Hc Hnd Hes Hc0 Hroom.
  - exists s. split_and!; [done|done|cbn; lia].
  - apply NoDup_cons in Hnd as [Hnin Hnd].
    destruct (Hes e) as [Hv Hfresh]; [by left|].
    rewrite length_cons in Hroom.
    destruct (plain_put_valid e s) as (o & Ho & Hput); [lia|done|].
    destruct (IH (pushed e o s) (e :: l0)) as (s' & Hrun & Hc' & Hcnt).
    + apply chain_pushed; [done|apply Hv|done].
    + done.
    + intros e' Hin. destruct (Hes e') as [Hv' Hfresh']; [by right|]. split.
      * cbn [mem pushed]. apply valid_insert; [by eexists|done].
      * apply not_elem_of_cons. split; [|done]. by intros ->.
    + rewrite count_pushed by lia. lia.
    + rewrite count_pushed by lia. lia.
    + exists s'. rewrite fmap_cons, plain_run_cons, plain_step_eq, Hput.
      cbn [map_result log_before]. rewrite Hrun. split_and!.
      * done.
      * by rewrite reverse_cons, <- app_assoc.
      * rewrite Hcnt, count_pushed by lia. rewrite length_cons. lia.
Qed.

Lemma plain_gets_chain (fuel : nat) (l szs : list Z) (s : machine) :
  chain (mem s) (head s) l → length szs = length l →
  Plain.run fuel (op_get <$> szs) s = Ok (o_ptr <$> l) (with_head NULL s) [].
Proof.
  revert szs s. induction l as [|e l IH]; intros szs s Hc Hlen.
  - destruct szs; [|done]. apply chain_inv in Hc as [[Hh _]|(_ & ? & ? & _ & ? & _)]; [|done].
    by rewrite <- Hh, with_head_id.
  - destruct szs as [|sz szs]; [done|]. injection Hlen as Hlen.
    apply chain_inv in Hc as [[_ ?]|(Hn & o & l' & Ho & [= -> ->] & Hc')]; [done|].
    rewrite fmap_cons, (plain_run_get _ _ _ _ _ _ (plain_get_head s o Hn Ho)).
    rewrite (IH szs (with_head (obj_next o) s)) by done. done.
Qed.

Lemma plain_gets_prefix (fuel : nat) (l1 l2 szs : list Z) (s : machine) :
  chain (mem s) (head s) (l1 ++ l2) → length szs = length l1 →
  ∃ s',
    Plain.run fuel (op_get <$> szs) s = Ok (o_ptr <$> l1) s' [] ∧
    mem s' = mem s ∧ count s' = count s ∧ chain (mem s') (head s') l2.
Proof.
  revert szs s. induction l1 as [|e l1 IH]; intros szs s Hc Hlen.
  - destruct szs; [|done]. by exists s.
  - destruct szs as [|sz szs]; [done|]. injection Hlen as Hlen.
    rewrite <- app_comm_cons in Hc.
    apply chain_inv in Hc as [[_ ?]|(Hn & o & l' & Ho & [= -> <-] & Hc')]; [done|].
    destruct (IH szs (with_head (obj_next o) s) Hc' Hlen) as (s' & Hrun & Hm & Hcnt & Hch).
    exists s'.
    rewrite fmap_cons, (plain_run_get _ _ _ _ _ _ (plain_get_head s o Hn Ho)), Hrun.
    done.
Qed.

Lemma chain_head_eq m1 m2 p1 p2 l : chain m1 p1 l → chain m2 p2 l → p1 = p2.
Proof. intros H1 H2. destruct H1; inversion H2; by subst. Qed.

Lemma erase_result_Ok_log {A} (r : result A) a s t :
  erase_result r = Ok a s t → ∃ t', r = Ok a s t' ∧ erase_kasan t' = t.
Proof. destruct r; [|done..]. cbn. intros [= -> -> <-]. eauto. Qed.

Lemma destroyed_erase t : destroyed (erase_kasan t) = destroyed t.
Proof.
  induction t as [|[e|e n|e] t IH]; cbn; [done|done|done|by rewrite IH].
Qed.

(** X10: LIFO order and no loss, for any number of entries.  On a cache
    whose head starts a chain [l0], puts of pairwise distinct objects that
    are not on [l0], as many as there is room for, all return true, and the
    gets that follow return the same entries in reverse order of the puts;
    after them the chain is [l0] again and the head is where it was.  Both
    revisions. *)
Theorem puts_then_gets_lifo (fuel : nat) (es szs l0 : list Z) (s : machine) :
  chain (mem s) (head s) l0 →
  NoDup es →
  (∀ e, e ∈ es → valid (mem s) e ∧ e ∉ l0) →
  0 ≤ count s → count s + Z.of_nat (length es) ≤ IO_ALLOC_CACHE_MAX →
  length szs = length es →
  ∃ s' t,
    Plain.run fuel ((op_put <$> es) ++ (op_get <$> szs)) s =
      Ok (replicate (length es) (o_bool true) ++ (o_ptr <$> reverse es)) s' [] ∧
    Kasan.run fuel ((op_put <$> es) ++ (op_get <$> szs)) s =
      Ok (replicate (length es) (o_bool true) ++ (o_ptr <$> reverse es)) s' t ∧
    chain (mem s') (head s') l0 ∧ head s' = head s.
Proof.
  intros Hc Hnd Hes Hc0 Hroom Hlen.
  destruct (plain_puts_chain fuel es s l0 Hc Hnd Hes Hc0 Hroom) as (s1 & Hputs & Hc1 & _).
  destruct (plain_gets_prefix fuel (reverse es) l0 szs s1 Hc1) as (s2 & Hgets & _ & _ & Hc2).
  { by rewrite length_reverse. }
  assert (Hrun : Plain.run fuel ((op_put <$> es) ++ (op_get <$> szs)) s =
            Ok (replicate (length es) (o_bool true) ++ (o_ptr <$> reverse es)) s2 []).
  { by rewrite plain_run_app, Hputs, Hgets. }
  pose proof (erase_run fuel ((op_put <$> es) ++ (op_get <$> szs)) s) as He.
  rewrite Hrun in He. apply erase_result_Ok in He as [t Hk].
  exists s2, t. split_and!; [done|done|done|].
  by eapply chain_head_eq.
Qed.

Lemma puts_then_gets_witness :
  ∃ s' t,
    Plain.run 0 ((op_put <$> [8; 16; 24]) ++ (op_get <$> [0; 0; 0])) fresh_cache =
      Ok (replicate (length [8; 16; 24]) (o_bool true) ++ (o_ptr <$> reverse [8; 16; 24]))
         s' [] ∧
    Kasan.run 0 ((op_put <$> [8; 16; 24]) ++ (op_get <$> [0; 0; 0])) fresh_cache =
      Ok (replicate (length [8; 16; 24]) (o_bool true) ++ (o_ptr <$> reverse [8; 16; 24]))
         s' t ∧
    chain (mem s') (head s') [] ∧ head s' = head fresh_cache.
Proof.
  apply (puts_then_gets_lifo 0 [8; 16; 24] [0; 0; 0] [] fresh_cache).
  - apply chain_nil.
  - apply (bool_decide_unpack _). vm_compute. exact I.
  - intros e He. split; [|apply not_elem_of_nil].
    assert (Hall : Forall (valid (mem fresh_cache)) [8; 16; 24])
      by (apply (bool_decide_unpack _); vm_compute; exact I).
    by apply (proj1 (Forall_forall _ _) Hall).
  - vm_compute. discriminate.
  - vm_compute. discriminate.
  - reflexivity.
Defined.

(** X11: gets empty a chain in order.  On a cache whose head starts a chain
    [l], as many gets as [l] has nodes return exactly the nodes of [l], first
    to last, and leave the head NULL, so that the next get returns NULL; the
    memory and nr_cached are not changed.  Both revisions. *)
Theorem gets_return_chain (fuel : nat) (l szs : list Z) (s : machine) :
  chain (mem s) (head s) l → length szs = length l →
  Plain.run fuel (op_get <$> szs) s = Ok (o_ptr <$> l) (with_head NULL s) [] ∧
  (∃ t, Kasan.run fuel (op_get <$> szs) s = Ok (o_ptr <$> l) (with_head NULL s) t) ∧
  Plain.io_alloc_cache_get (with_head NULL s) = Ok NULL (with_head NULL s) [].
Proof.
  intros Hc Hlen.
  pose proof (plain_gets_chain fuel l szs s Hc Hlen) as Hrun.
  split_and!; [done| |by rewrite plain_get_eq].
  pose proof (erase_run fuel (op_get <$> szs) s) as He.
  rewrite Hrun in He. by apply erase_result_Ok in He.
Qed.

Lemma gets_return_chain_witness :
  Plain.run 0 (op_get <$> [1; 2; 3]) stacked_cache =
    Ok (o_ptr <$> [24; 16; 8]) (with_head NULL stacked_cache) [] ∧
  (∃ t, Kasan.run 0 (op_get <$> [1; 2; 3]) stacked_cache =
          Ok (o_ptr <$> [24; 16; 8]) (with_head NULL stacked_cache) t) ∧
  Plain.io_alloc_cache_get (with_head NULL stacked_cache) =
    Ok NULL (with_head NULL stacked_cache) [].
Proof.
  apply (gets_return_chain 0 [24; 16; 8] [1; 2; 3] stacked_cache stacked_chain).
  reflexivity.
Defined.

(** X12: init, puts, free.  After init, puts of pairwise distinct objects,
    at most IO_ALLOC_CACHE_MAX of them, all return true, and the free that
    follows (given more fuel than there are entries) calls the callback on
    exactly these entries, once each, last put first, and leaves the head
    NULL and nr_cached 0.  Both revisions. *)
Theorem init_puts_free (fuel : nat) (es : list Z) (sz : Z) (s : machine) :
  NoDup es →
  Forall (valid (mem s)) es →
  Z.of_nat (length es) ≤ IO_ALLOC_CACHE_MAX →
  (length es < fuel)%nat →
  ∃ s' t,
    Plain.run fuel (op_init :: (op_put <$> es) ++ [op_free sz]) s =
      Ok (o_unit :: replicate (length es) (o_bool true) ++ [o_unit]) s'
         (EvFree <$> reverse es) ∧
    Kasan.run fuel (op_init :: (op_put <$> es) ++ [op_free sz]) s =
      Ok (o_unit :: replicate (length es) (o_bool true) ++ [o_unit]) s' t ∧
    destroyed t = reverse es ∧
    head s' = NULL ∧ count s' = 0.
Proof.
  intros Hnd Hv Hlen Hfuel.
  destruct (plain_puts_chain fuel es (drained s) []) as (s1 & Hputs & Hc1 & _).
  - apply chain_nil.
  - done.
  - intros e He. split; [|apply not_elem_of_nil].
    by apply (proj1 (Forall_forall _ _) Hv).
  - done.
  - change (count (drained s)) with 0. lia.
  - rewrite app_nil_r in Hc1.
    assert (Hrun : Plain.run fuel (op_init :: (op_put <$> es) ++ [op_free sz]) s =
              Ok (o_unit :: replicate (length es) (o_bool true) ++ [o_unit]) (drained s1)
                 (EvFree <$> reverse es)).
    { rewrite plain_run_cons, plain_step_eq, plain_run_app, Hputs.
      cbn [log_before map_result app].
      rewrite plain_run_cons, plain_step_eq.
      rewrite (plain_free_chain fuel s1 (reverse es)); [|done|by rewrite length_reverse].
      cbn. by rewrite app_nil_r. }
    pose proof (erase_run fuel (op_init :: (op_put <$> es) ++ [op_free sz]) s) as He.
    rewrite Hrun in He. apply erase_result_Ok_log in He as (t & Hk & Ht).
    exists (drained s1), t. split_and!; [done|done| |done|done].
    by rewrite <- destroyed_erase, Ht, destroyed_plain_log.
Qed.

Lemma init_puts_free_witness :
  ∃ s' t,
    Plain.run 4 (op_init :: (op_put <$> [8; 16; 24]) ++ [op_free 64]) stacked_cache =
      Ok (o_unit :: replicate (length [8; 16; 24]) (o_bool true) ++ [o_unit]) s'
         (EvFree <$> reverse [8; 16; 24]) ∧
    Kasan.run 4 (op_init :: (op_put <$> [8; 16; 24]) ++ [op_free 64]) stacked_cache =
      Ok (o_unit :: replicate (length [8; 16; 24]) (o_bool true) ++ [o_unit]) s' t ∧
    destroyed t = reverse [8; 16; 24] ∧
    head s' = NULL ∧ count s' = 0.
Proof.
  apply (init_puts_free 4 [8; 16; 24] 64 stacked_cache).
  - apply (bool_decide_unpack _). vm_compute. exact I.
  - apply (bool_decide_unpack _). vm_compute. exact I.
  - vm_compute. discriminate.
  - cbn. lia.
Defined.

(** ** The KASAN hooks *)

(** X13: the free loop of the KASAN revision unpoisons every entry, with
    the size the caller passed, right before it hands the entry to the
    callback: on a chain [l] the log is unpoison, free, unpoison, free, ...
    in chain order, and no poison is logged. *)
Theorem kasan_free_unpoisons_then_frees (fuel : nat) (size : Z) (s : machine)
    (l : list Z) :
  chain (mem s) (head s) l → (length l < fuel)%nat →
  Kasan.io_alloc_cache_free fuel size s =
    Ok () (drained s) (l ≫= λ e, [EvUnpoison e size; EvFree e]).
Proof. apply kasan_free_chain. Qed.

Lemma kasan_free_unpoisons_witness :
  Kasan.io_alloc_cache_free 4 64 stacked_cache =
    Ok () (drained stacked_cache)
       ([24; 16; 8] ≫= λ e, [EvUnpoison e 64; EvFree e]).
Proof.
  apply (kasan_free_unpoisons_then_frees 4 64 stacked_cache [24; 16; 8] stacked_chain).
  cbn. lia.
Defined.

Lemma kasan_run_cons_inv fuel o ops s outs s' t :
  Kasan.run fuel (o :: ops) s = Ok outs s' t →
  ∃ r rs s1 t1 t2,
    Kasan.step fuel o s = Ok r s1 t1 ∧ Kasan.run fuel ops s1 = Ok rs s' t2 ∧
    outs = r :: rs ∧ t = t1 ++ t2.
Proof.
  rewrite kasan_run_cons.
  destruct (Kasan.step fuel o s) as [r s1 t1| |]; [|done..].
  destruct (Kasan.run fuel ops s1) as [rs s2 t2| |] eqn:Hr; [|done..].
  cbn. intros [= <- <- <-]. by exists r, rs, s1, t1, t2.
Qed.

Lemma kasan_step_hooks fuel o s r s' t :
  is_free o = false →
  Kasan.step fuel o s = Ok r s' t → t = hook_events o r.
Proof.
  intros Hnf. rewrite kasan_step_eq. destruct o as [|e|size|size]; [| | |done].
  - by intros [= <- _ <-].
  - rewrite kasan_put_eq. case_bool_decide; [|by intros [= <- _ <-]].
    case_bool_decide; [done|]. destruct (mem s !! e); [|done].
    by intros [= <- _ <-].
  - rewrite kasan_get_eq. case_bool_decide as Hn; [|by intros [= <- _ <-]].
    destruct (mem s !! head s); [|done].
    intros [= <- _ <-]. cbn. by rewrite bool_decide_eq_false_2.
Qed.

(** X14: in the KASAN revision the hooks follow the transitions of the
    entries.  Along any sequence of init, put and get, the log is exactly:
    one poison of [e] for each put of [e] that returned true, one unpoison
    of [p] with the caller's size for each get that returned a non-NULL [p],
    in the order of the calls, and nothing for a refused put or a get on an
    empty cache. *)
Theorem kasan_hooks_follow_outcomes (fuel : nat) (ops : list op) (s s' : machine)
    (outs : list outcome) (t : list event) :
  forallb (λ o, negb (is_free o)) ops = true →
  Kasan.run fuel ops s = Ok outs s' t →
  t = expected_hooks ops outs.
Proof.
  revert s outs t. induction ops as [|o ops IH]; intros s outs t Hops H.
  - by injection H as <- _ <-.
  - apply kasan_run_cons_inv in H as (r & rs & s1 & t1 & t2 & Hs & Hr & -> & ->).
    cbn [forallb] in Hops. apply andb_prop in Hops as [Ho Hops].
    apply negb_true_iff in Ho.
    cbn [expected_hooks]. f_equal; [by eapply kasan_step_hooks|by eapply IH].
Qed.

Lemma kasan_hooks_witness :
  ∃ s' t,
    Kasan.run 0 [op_init; op_put 8; op_put 16; op_get 32; op_get 48; op_get 64] full_cache =
      Ok [o_unit; o_bool true; o_bool true; o_ptr 16; o_ptr 8; o_ptr NULL] s' t ∧
    t = [EvPoison 8; EvPoison 16; EvUnpoison 16 32; EvUnpoison 8 48].
Proof.
  assert (Hrun : ∃ s' t,
    Kasan.run 0 [op_init; op_put 8; op_put 16; op_get 32; op_get 48; op_get 64] full_cache =
      Ok [o_unit; o_bool true; o_bool true; o_ptr 16; o_ptr 8; o_ptr NULL] s' t)
    by (eexists _, _; vm_compute; reflexivity).
  destruct Hrun as (s' & t & Hrun).
  exists s', t. split; [exact Hrun|].
  exact (kasan_hooks_follow_outcomes 0
           [op_init; op_put 8; op_put 16; op_get 32; op_get 48; op_get 64]
           full_cache s'
           [o_unit; o_bool true; o_bool true; o_ptr 16; o_ptr 8; o_ptr NULL]
           t eq_refl Hrun).
Defined.

(** ** A put that is accepted *)

(** X15: what a put that returns true has done, in both revisions: the
    entry is the new head, its link field holds the old head, no other link
    field and no payload has changed, nr_cached is one higher; the plain
    revision logs nothing and the KASAN revision logs one poison of the
    entry. *)
Theorem put_accepted_effect (s s' : machine) (e : Z) (t : list event) :
  0 ≤ count s →
  Plain.io_alloc_cache_put e s = Ok true s' t ∨
  Kasan.io_alloc_cache_put e s = Ok true s' t →
  head s' = e ∧
  links (mem s') = <[e := head s]> (links (mem s)) ∧
  payloads (mem s') = payloads (mem s) ∧
  count s' = count s + 1 ∧
  Plain.io_alloc_cache_put e s = Ok true s' [] ∧
  Kasan.io_alloc_cache_put e s = Ok true s' [EvPoison e].
Proof.
  intros Hc0 H.
  assert (Hp : ∃ t0, Plain.io_alloc_cache_put e s = Ok true s' t0).
  { destruct H as [H|H]; [by eexists|].
    eexists. by rewrite <- erase_put, H. }
  destruct Hp as [t0 Hp].
  apply plain_put_true_inv in Hp as (Hlt & Hne & o & Ho & -> & _).
  split_and!.
  - done.
  - apply links_insert.
  - by apply payloads_insert.
  - apply count_pushed. lia.
  - rewrite plain_put_eq, bool_decide_eq_true_2, bool_decide_eq_false_2 by done.
    by rewrite Ho.
  - rewrite kasan_put_eq, bool_decide_eq_true_2, bool_decide_eq_false_2 by done.
    by rewrite Ho.
Qed.

Lemma put_accepted_witness :
  ∃ s',
    head s' = 8 ∧
    links (mem s') = <[8 := head stacked_cache]> (links (mem stacked_cache)) ∧
    payloads (mem s') = payloads (mem stacked_cache) ∧
    count s' = count stacked_cache + 1 ∧
    Plain.io_alloc_cache_put 8 stacked_cache = Ok true s' [] ∧
    Kasan.io_alloc_cache_put 8 stacked_cache = Ok true s' [EvPoison 8].
Proof.
  assert (Hc0 : 0 ≤ count stacked_cache) by (vm_compute; discriminate).
  eexists.
  apply (put_accepted_effect stacked_cache _ 8 [EvPoison 8] Hc0).
  right. vm_compute. reflexivity.
Defined.

(** ** Init on a cache that still holds entries *)

(** X16: init does not drain.  Whatever the head and the counter were,
    after init the next get returns NULL and a free calls the callback on
    nothing, in both revisions, while the memory (the entries that were
    linked and their links) is left as it was. *)
Theorem init_forgets_chain (fuel : nat) (sz : Z) (s : machine) :
  Plain.run (S fuel) [op_init; op_get sz; op_free sz] s =
    Ok [o_unit; o_ptr NULL; o_unit] (drained s) [] ∧
  Kasan.run (S fuel) [op_init; op_get sz; op_free sz] s =
    Ok [o_unit; o_ptr NULL; o_unit] (drained s) [] ∧
  mem (drained s) = mem s.
Proof.
  split_and!; [| |done].
  - rewrite plain_run_cons, plain_step_eq.
    rewrite plain_run_cons, plain_step_eq, drained_get_plain.
    cbn [log_before map_result].
    rewrite plain_run_cons, plain_step_eq, plain_free_S. done.
  - rewrite kasan_run_cons, kasan_step_eq.
    rewrite kasan_run_cons, kasan_step_eq, drained_get_kasan.
    cbn [log_before map_result].
    rewrite kasan_run_cons, kasan_step_eq, kasan_free_S. done.
Qed.

(** ** How long the free loop runs *)

Lemma plain_free_short fuel s l :
  chain (mem s) (head s) l → (fuel ≤ length l)%nat →
  Plain.io_alloc_cache_free fuel s = OutOfFuel.
Proof.
  revert s l. induction fuel as [|fuel IH]; intros s l Hc Hlen; [done|].
  rewrite plain_free_S.
  destruct (chain_inv _ _ _ Hc) as [[_ ->]|(Hp & o & l' & Ho & -> & Hc')];
    [cbn in Hlen; lia|].
  rewrite bool_decide_eq_true_2 by done. rewrite Ho.
  rewrite (IH _ l'); [done|done|cbn in Hlen; lia].
Qed.

Lemma kasan_free_short fuel size s l :
  chain (mem s) (head s) l → (fuel ≤ length l)%nat →
  Kasan.io_alloc_cache_free fuel size s = OutOfFuel.
Proof.
  revert s l. induction fuel as [|fuel IH]; intros s l Hc Hlen; [done|].
  rewrite kasan_free_S.
  destruct (chain_inv _ _ _ Hc) as [[_ ->]|(Hp & o & l' & Ho & -> & Hc')];
    [cbn in Hlen; lia|].
  rewrite bool_decide_eq_true_2 by done. rewrite Ho.
  rewrite (IH _ l'); [done|done|cbn in Hlen; lia].
Qed.

(** X17: the free loop is linear in the chain.  On a chain of [n] nodes
    the loop of either revision evaluates its condition exactly [n + 1]
    times: it is still running after [n] evaluations and has returned after
    [n + 1]. *)
Theorem free_loop_iterations (size : Z) (s : machine) (l : list Z) :
  chain (mem s) (head s) l →
  Plain.io_alloc_cache_free (length l) s = OutOfFuel ∧
  Kasan.io_alloc_cache_free (length l) size s = OutOfFuel ∧
  (∃ t, Plain.io_alloc_cache_free (S (length l)) s = Ok () (drained s) t) ∧
  (∃ t, Kasan.io_alloc_cache_free (S (length l)) size s = Ok () (drained s) t).
Proof.
  intros Hc. split_and!.
  - by eapply plain_free_short.
  - by eapply kasan_free_short.
  - eexists. apply plain_free_chain; [done|lia].
  - eexists. apply kasan_free_chain; [done|lia].
Qed.

Lemma free_loop_iterations_witness :
  Plain.io_alloc_cache_free (length [24; 16; 8]) stacked_cache = OutOfFuel ∧
  Kasan.io_alloc_cache_free (length [24; 16; 8]) 64 stacked_cache = OutOfFuel ∧
  (∃ t, Plain.io_alloc_cache_free (S (length [24; 16; 8])) stacked_cache =
          Ok () (drained stacked_cache) t) ∧
  (∃ t, Kasan.io_alloc_cache_free (S (length [24; 16; 8])) 64 stacked_cache =
          Ok () (drained stacked_cache) t).
Proof. exact (free_loop_iterations 64 stacked_cache [24; 16; 8] stacked_chain). Defined.

(** * The powerpc shadow mapping *)

Lemma ulong_cancel x off :
  0 ≤ x < Ppc.ULONG_MODULUS →
  Ppc.ulong (Ppc.ulong (x + off) - off) = x.
Proof.
  intros Hx. unfold Ppc.ulong.
  rewrite Zminus_mod_idemp_l.
  replace (x + off - off) with x by lia.
  by apply Z.mod_small.
Qed.

Lemma shiftr_ulong_range a n :
  0 ≤ n → 0 ≤ a < Ppc.ULONG_MODULUS → 0 ≤ Z.shiftr a n < Ppc.ULONG_MODULUS.
Proof.
  intros Hn Ha. rewrite Z.shiftr_div_pow2 by done.
  assert (0 < 2 ^ n) by (by apply Z.pow_pos_nonneg).
  split; [by apply Z.div_pos; lia|].
  apply Z.le_lt_trans with a; [|lia].
  apply Z.div_le_upper_bound; [done|]. nia.
Qed.

Lemma shiftl_shiftr_granule a n :
  0 ≤ n → 0 ≤ a →
  Z.shiftl (Z.shiftr a n) n = a - a mod 2 ^ n ∧ 0 ≤ Z.shiftl (Z.shiftr a n) n ≤ a.
Proof.
  intros Hn Ha. rewrite Z.shiftr_div_pow2, Z.shiftl_mul_pow2 by done.
  assert (0 < 2 ^ n) by (by apply Z.pow_pos_nonneg).
  pose proof (Z.div_mod a (2 ^ n) ltac:(lia)) as Hdm.
  pose proof (Z.mod_pos_bound a (2 ^ n) ltac:(lia)) as Hmod.
  pose proof (Z.mod_le a (2 ^ n) ltac:(lia) ltac:(lia)) as Hle.
  lia.
Qed.

(** X18: shadow round trip.  For an address of the kernel region whose
    shadow address falls in the KASAN region, kasan_shadow_to_mem gives back
    the address kasan_mem_to_shadow started from, rounded down to its
    granule of [2^KASAN_SHADOW_SCALE_SHIFT] bytes. *)
Theorem ppc_shadow_round_trip (L : Ppc.layout) (addr : Z) :
  0 ≤ Ppc.KASAN_SHADOW_SCALE_SHIFT L →
  0 ≤ addr < Ppc.ULONG_MODULUS →
  Ppc.REGION_ID L addr = Ppc.KERNEL_REGION_ID L →
  Ppc.REGION_ID L (Ppc.kasan_mem_to_shadow L addr) = Ppc.KASAN_REGION_ID L →
  Ppc.kasan_shadow_to_mem L (Ppc.kasan_mem_to_shadow L addr) =
    Some (addr - addr mod 2 ^ Ppc.KASAN_SHADOW_SCALE_SHIFT L).
Proof.
  intros Hn Ha Hk Hs. unfold Ppc.kasan_shadow_to_mem.
  rewrite bool_decide_eq_true_2 by done.
  unfold Ppc.kasan_mem_to_shadow. rewrite bool_decide_eq_true_2 by done.
  rewrite ulong_cancel by (by apply shiftr_ulong_range).
  destruct (shiftl_shiftr_granule addr (Ppc.KASAN_SHADOW_SCALE_SHIFT L)) as [Heq Hb];
    [done|lia|].
  f_equal. unfold Ppc.ulong. rewrite Z.mod_small by lia. done.
Qed.

Lemma ppc_shadow_round_trip_witness :
  Ppc.kasan_shadow_to_mem Ppc.book3s64
    (Ppc.kasan_mem_to_shadow Ppc.book3s64 0xc00000000012345f) =
  Some (0xc00000000012345f - 0xc00000000012345f mod 2 ^ 3).
Proof.
  apply (ppc_shadow_round_trip Ppc.book3s64 0xc00000000012345f).
  - vm_compute. discriminate.
  - vm_compute. split; [discriminate|reflexivity].
  - vm_compute. reflexivity.
  - vm_compute. reflexivity.
Defined.

(** X19: one shadow byte per granule, no aliasing.  Two addresses of the
    kernel region have the same shadow address exactly when they lie in the
    same granule of [2^KASAN_SHADOW_SCALE_SHIFT] bytes. *)
Theorem ppc_shadow_same_granule (L : Ppc.layout) (a b : Z) :
  0 ≤ Ppc.KASAN_SHADOW_SCALE_SHIFT L →
  0 ≤ a < Ppc.ULONG_MODULUS → 0 ≤ b < Ppc.ULONG_MODULUS →
  Ppc.REGION_ID L a = Ppc.KERNEL_REGION_ID L →
  Ppc.REGION_ID L b = Ppc.KERNEL_REGION_ID L →
  (Ppc.kasan_mem_to_shadow L a = Ppc.kasan_mem_to_shadow L b ↔
   Z.shiftr a (Ppc.KASAN_SHADOW_SCALE_SHIFT L) =
   Z.shiftr b (Ppc.KASAN_SHADOW_SCALE_SHIFT L)).
Proof.
  intros Hn Ha Hb Hka Hkb. unfold Ppc.kasan_mem_to_shadow.
  rewrite !bool_decide_eq_true_2 by done.
  split; [|by intros ->].
  intros Heq.
  rewrite <- (ulong_cancel (Z.shiftr a _) (Ppc.KASAN_SHADOW_KERNEL_OFFSET L))
    by (by apply shiftr_ulong_range).
  rewrite Heq. by apply ulong_cancel, shiftr_ulong_range.
Qed.

Lemma ppc_shadow_same_granule_witness :
  Ppc.kasan_mem_to_shadow Ppc.book3s64 0xc000000000000010 =
  Ppc.kasan_mem_to_shadow Ppc.book3s64 0xc000000000000017 ↔
  Z.shiftr 0xc000000000000010 3 = Z.shiftr 0xc000000000000017 3.
Proof.
  apply (ppc_shadow_same_granule Ppc.book3s64 0xc000000000000010 0xc000000000000017).
  - vm_compute. discriminate.
  - vm_compute. split; [discriminate|reflexivity].
  - vm_compute. split; [discriminate|reflexivity].
  - vm_compute. reflexivity.
  - vm_compute. reflexivity.
Defined.

(** The example of the header's comment: 0xc000000000000000 has its shadow
    at 0xe000000000000000; an address outside the kernel region is sent to
    the zero page, and a shadow address outside the KASAN region has no
    memory address. *)
Example ppc_shadow_comment_example :
  Ppc.kasan_mem_to_shadow Ppc.book3s64 0xc000000000000000 = 0xe000000000000000 ∧
  Ppc.kasan_mem_to_shadow Ppc.book3s64 0xd000000000000000 =
    Ppc.kasan_zero_page Ppc.book3s64 ∧
  Ppc.kasan_shadow_to_mem Ppc.book3s64 0xe000000000000000 = Some 0xc000000000000000 ∧
  Ppc.kasan_shadow_to_mem Ppc.book3s64 0xc000000000000000 = None.
Proof. vm_compute. repeat split. Qed.
